(** * AWB statistics controller of the ISP driver (isp_awb.c)

    A shallow embedding of [components/esp_driver_isp/src/isp_awb.c]:
    the claim registry and the controller life cycle over an explicit
    store of driver objects, the statistics API as programs over the
    RTOS and low-level primitives the C code calls, and the interrupt
    handler; followed by the properties of the design document that
    concern them. *)

From Stdlib Require Import ZArith Floats.SpecFloat.
From stdpp Require Import base option list gmap.

Open Scope Z_scope.

(** ** Error codes and the controller state machine *)

Inductive esp_err_t : Set :=
| ESP_OK
| ESP_FAIL
| ESP_ERR_NO_MEM
| ESP_ERR_INVALID_ARG
| ESP_ERR_INVALID_STATE
| ESP_ERR_NOT_FOUND
| ESP_ERR_TIMEOUT.

Global Instance esp_err_eq_dec : EqDecision esp_err_t.
Proof. solve_decision. Defined.

Inductive isp_fsm_t : Set :=
| ISP_FSM_INIT
| ISP_FSM_ENABLE
| ISP_FSM_START.

Global Instance isp_fsm_eq_dec : EqDecision isp_fsm_t.
Proof. solve_decision. Defined.

(** ** Data carried by the driver *)

(** [isp_awb_stat_result_t]: one completed sampling window. *)
Record isp_awb_stat_result_t : Set := mk_result {
  white_patch_num : Z;
  sum_r : Z;
  sum_g : Z;
  sum_b : Z
}.

Global Instance isp_awb_stat_result_eq_dec : EqDecision isp_awb_stat_result_t.
Proof. solve_decision. Defined.

(** [esp_isp_awb_evt_data_t] *)
Record esp_isp_awb_evt_data_t : Set := mk_edata {
  awb_result : isp_awb_stat_result_t
}.

(** The completion callback: it receives the event data and the user
    context and says whether a higher priority task was woken. *)
Definition awb_callback_t : Type := esp_isp_awb_evt_data_t -> Z -> bool.

Record esp_isp_awb_cbs_t : Type := mk_cbs {
  on_statistics_done : option awb_callback_t
}.

Record isp_window_t : Set := mk_window {
  top_left : Z * Z;
  btm_right : Z * Z
}.

Record isp_u32_range_t : Set := mk_u32_range {
  u32_min : Z;
  u32_max : Z
}.

(** [isp_float_range_t]: C [float]s, as IEEE 754 values. *)
Record isp_float_range_t : Set := mk_float_range {
  f_min : spec_float;
  f_max : spec_float
}.

Record white_patch_t : Set := mk_white_patch {
  luminance : isp_u32_range_t;
  red_green_ratio : isp_float_range_t;
  blue_green_ratio : isp_float_range_t
}.

Record esp_isp_awb_config_t : Set := mk_config {
  sample_point : Z;
  window : isp_window_t;
  white_patch : white_patch_t;
  intr_priority : Z
}.

(** ** Constants and collaborators declared outside isp_awb.c

    The tick rate, the interrupt flag words, the event bits of the AWB
    block and the range checks of the HAL setters are declared in other
    components; the driver code is parametric in them. *)
Record platform_t : Type := mk_platform {
  configTICK_RATE_HZ : Z;
  ISP_INTR_ALLOC_FLAGS : Z;
  ESP_INTR_FLAG_LOWMED : Z;
  ISP_LL_EVENT_AWB_FDONE : Z;
  ISP_LL_EVENT_AWB_MASK : Z;
  CONFIG_ISP_ISR_IRAM_SAFE : bool;
  isp_hal_awb_set_window_range : isp_window_t -> bool;
  isp_hal_awb_set_luminance_range : Z -> Z -> bool;
  isp_hal_awb_set_rg_ratio_range : spec_float -> spec_float -> bool;
  isp_hal_awb_set_bg_ratio_range : spec_float -> spec_float -> bool
}.

Definition BIT (n : Z) : Z := Z.shiftl 1 n.

Definition uint32_wrap (z : Z) : Z := z mod 2 ^ 32.

(** [portMAX_DELAY] of a 32-bit [TickType_t]: wait without a deadline. *)
Definition portMAX_DELAY : Z := 4294967295.

(** Modelled from the spec: the macro [pdMS_TO_TICKS] is not part of
    isp_awb.c. A timeout of zero is a poll and a positive one waits up to
    that duration; the milliseconds are scaled by the tick rate in
    [TickType_t] arithmetic. *)
Definition pdMS_TO_TICKS (pf : platform_t) (xTimeInMs : Z) : Z :=
  uint32_wrap (uint32_wrap xTimeInMs * uint32_wrap (configTICK_RATE_HZ pf)) / 1000.

(** The C comparisons on [float]. *)
Definition float_lt (a b : spec_float) : bool := SFltb a b.
Definition float_ge (a b : spec_float) : bool := SFleb b a.
Definition float_zero : spec_float := S754_zero false.

(** ** Hardware registers of the AWB block touched by the driver *)

Record isp_hw_t : Set := mk_hw {
  awb_en : bool;              (* cntl.awb_en: the engine samples a window *)
  awb_clk_en : bool;
  awb_intr_en : bool;         (* int_ena, AWB events *)
  awb_algo_mode : bool;
  awb_sample_point : Z;
  intr_raw : Z;               (* pending events *)
  acc : isp_awb_stat_result_t;  (* white patch count and the three sums *)
  awb_triggers : nat          (* how many times awb_en has been written 1 *)
}.

Definition hw_reset : isp_hw_t :=
  mk_hw false false false false 0 0 (mk_result 0 0 0 0) 0.

Definition isp_ll_awb_enable (en : bool) (h : isp_hw_t) : isp_hw_t :=
  mk_hw en (awb_clk_en h) (awb_intr_en h) (awb_algo_mode h)
        (awb_sample_point h) (intr_raw h) (acc h)
        (if en then S (awb_triggers h) else awb_triggers h).

Definition isp_ll_awb_clk_enable (en : bool) (h : isp_hw_t) : isp_hw_t :=
  mk_hw (awb_en h) en (awb_intr_en h) (awb_algo_mode h)
        (awb_sample_point h) (intr_raw h) (acc h) (awb_triggers h).

Definition isp_ll_enable_intr (en : bool) (h : isp_hw_t) : isp_hw_t :=
  mk_hw (awb_en h) (awb_clk_en h) en (awb_algo_mode h)
        (awb_sample_point h) (intr_raw h) (acc h) (awb_triggers h).

Definition isp_ll_awb_enable_algorithm_mode (en : bool) (h : isp_hw_t) : isp_hw_t :=
  mk_hw (awb_en h) (awb_clk_en h) (awb_intr_en h) en
        (awb_sample_point h) (intr_raw h) (acc h) (awb_triggers h).

Definition isp_ll_awb_set_sample_point (p : Z) (h : isp_hw_t) : isp_hw_t :=
  mk_hw (awb_en h) (awb_clk_en h) (awb_intr_en h) (awb_algo_mode h)
        p (intr_raw h) (acc h) (awb_triggers h).

(** Modelled from the spec: [isp_hal_check_clear_intr_event] lives in the
    HAL; it reads and clears the pending-event bitmask for the given
    source and returns the events that were pending. *)
Definition isp_hal_check_clear_intr_event (mask : Z) (h : isp_hw_t) : Z * isp_hw_t :=
  (Z.land (intr_raw h) mask,
   mk_hw (awb_en h) (awb_clk_en h) (awb_intr_en h) (awb_algo_mode h)
         (awb_sample_point h) (Z.land (intr_raw h) (Z.lnot mask)) (acc h)
         (awb_triggers h)).

(** The hardware as the handler finds it on entry: the accumulators hold
    [r] and the events [ev] are pending. *)
Definition hw_raise (ev : Z) (r : isp_awb_stat_result_t) (h : isp_hw_t) : isp_hw_t :=
  mk_hw (awb_en h) (awb_clk_en h) (awb_intr_en h) (awb_algo_mode h)
        (awb_sample_point h) ev r (awb_triggers h).

(** ** The store of driver objects

    Handles are pointers; [None] is [NULL]. The controller struct, the
    processor it is attached to, the event queue, the binary semaphore and
    the interrupt table entry are separate objects. Reading through a
    handle that is not live yields a default object and writing through it
    does nothing; all properties below are stated for live handles. *)

Definition handle : Set := positive.
Definition isp_awb_ctlr_t : Set := option handle.
Definition isp_proc_handle_t : Set := option handle.

(** [struct isp_awb_controller_t] (the spinlock is the atomicity of the
    steps below). *)
Record isp_awb_controller_t : Type := mk_ctlr {
  fsm : isp_fsm_t;
  intr_handle : option handle;
  isp_proc : isp_proc_handle_t;
  evt_que : option handle;
  stat_lock : option handle;
  cbs : esp_isp_awb_cbs_t;
  user_data : Z
}.

(** The part of [isp_processor_t] the AWB driver uses. *)
Record isp_processor_t : Set := mk_proc {
  awb_ctlr : isp_awb_ctlr_t;
  hal_hw : isp_hw_t
}.

(** An interrupt table entry: the handler argument and whether the
    source is enabled. *)
Record intr_entry_t : Set := mk_intr {
  intr_arg : handle;
  intr_flags : Z;
  intr_enabled : bool
}.

Record store : Type := mk_store {
  procs : gmap handle isp_processor_t;
  ctlrs : gmap handle isp_awb_controller_t;
  queues : gmap handle (option isp_awb_stat_result_t);  (* length one *)
  sems : gmap handle bool;                              (* token present *)
  intrs : gmap handle intr_entry_t
}.

(** A block returned by [heap_caps_calloc]: all fields zero. *)
Definition calloc_ctlr : isp_awb_controller_t :=
  mk_ctlr ISP_FSM_INIT None None None None (mk_cbs None) 0.

Global Instance isp_awb_controller_inhabited : Inhabited isp_awb_controller_t :=
  populate calloc_ctlr.
Global Instance isp_processor_inhabited : Inhabited isp_processor_t :=
  populate (mk_proc None hw_reset).

Definition set_procs (f : gmap handle isp_processor_t -> gmap handle isp_processor_t)
    (w : store) : store :=
  mk_store (f (procs w)) (ctlrs w) (queues w) (sems w) (intrs w).
Definition set_ctlrs (f : gmap handle isp_awb_controller_t -> gmap handle isp_awb_controller_t)
    (w : store) : store :=
  mk_store (procs w) (f (ctlrs w)) (queues w) (sems w) (intrs w).
Definition set_queues (f : gmap handle (option isp_awb_stat_result_t)
                           -> gmap handle (option isp_awb_stat_result_t))
    (w : store) : store :=
  mk_store (procs w) (ctlrs w) (f (queues w)) (sems w) (intrs w).
Definition set_sems (f : gmap handle bool -> gmap handle bool) (w : store) : store :=
  mk_store (procs w) (ctlrs w) (queues w) (f (sems w)) (intrs w).
Definition set_intrs (f : gmap handle intr_entry_t -> gmap handle intr_entry_t)
    (w : store) : store :=
  mk_store (procs w) (ctlrs w) (queues w) (sems w) (f (intrs w)).

(** Field writes of the controller struct. *)
Definition with_fsm (v : isp_fsm_t) (c : isp_awb_controller_t) :=
  mk_ctlr v (intr_handle c) (isp_proc c) (evt_que c) (stat_lock c) (cbs c) (user_data c).
Definition with_intr_handle (v : option handle) (c : isp_awb_controller_t) :=
  mk_ctlr (fsm c) v (isp_proc c) (evt_que c) (stat_lock c) (cbs c) (user_data c).
Definition with_isp_proc (v : isp_proc_handle_t) (c : isp_awb_controller_t) :=
  mk_ctlr (fsm c) (intr_handle c) v (evt_que c) (stat_lock c) (cbs c) (user_data c).
Definition with_evt_que (v : option handle) (c : isp_awb_controller_t) :=
  mk_ctlr (fsm c) (intr_handle c) (isp_proc c) v (stat_lock c) (cbs c) (user_data c).
Definition with_stat_lock (v : option handle) (c : isp_awb_controller_t) :=
  mk_ctlr (fsm c) (intr_handle c) (isp_proc c) (evt_que c) v (cbs c) (user_data c).

Definition with_awb_ctlr (v : isp_awb_ctlr_t) (p : isp_processor_t) : isp_processor_t :=
  mk_proc v (hal_hw p).
Definition with_hw (f : isp_hw_t -> isp_hw_t) (p : isp_processor_t) : isp_processor_t :=
  mk_proc (awb_ctlr p) (f (hal_hw p)).

(** What the allocators answer to one call of the constructor: the
    addresses they hand out, or [None] when they are out of memory, and
    the verdict of the interrupt allocator for the requested flags. *)
Record alloc_env : Type := mk_env {
  heap_caps_calloc : option handle;
  xQueueCreateWithCaps : option handle;
  xSemaphoreCreateBinaryWithCaps : option handle;
  esp_intr_alloc_intrstatus : Z -> esp_err_t * option handle
}.

(** ** Resource claim registry *)

(** Arguments are named [proc] and [ctlr] where the C code says
    [isp_proc] and [awb_ctlr], which are the field names here. *)
Definition s_isp_claim_awb_controller (proc : handle) (ctlr : handle)
    (w : store) : esp_err_t * store :=
  match awb_ctlr (procs w !!! proc) with
  | None =>
      (ESP_OK, set_procs (alter (with_awb_ctlr (Some ctlr)) proc) w)
  | Some _ => (ESP_ERR_NOT_FOUND, w)
  end.

Definition s_isp_declaim_awb_controller (ctlr : isp_awb_ctlr_t) (w : store) : store :=
  match ctlr with
  | Some c =>
      match isp_proc (ctlrs w !!! c) with
      | Some p => set_procs (alter (with_awb_ctlr None) p) w
      | None => w
      end
  | None => w
  end.

Definition s_isp_awb_free_controller (ctlr : isp_awb_ctlr_t) (w : store) : store :=
  match ctlr with
  | Some c =>
      let obj := ctlrs w !!! c in
      let w1 := match intr_handle obj with
                | Some i => set_intrs (delete i) w      (* esp_intr_free *)
                | None => w
                end in
      let w2 := match evt_que obj with
                | Some q => set_queues (delete q) w1    (* vQueueDelete *)
                | None => w1
                end in
      let w3 := match stat_lock obj with
                | Some s => set_sems (delete s) w2      (* vSemaphoreDelete *)
                | None => w2
                end in
      set_ctlrs (delete c) w3                           (* free *)
  | None => w
  end.

Section Lifecycle.

Variable pf : platform_t.

(** The two exit labels of the constructor. The middle component of a
    result is what has been stored through [ret_hdl]. *)
Definition new_awb_err1 (ret : esp_err_t) (c : handle) (w : store)
    : esp_err_t * isp_awb_ctlr_t * store :=
  (ret, None, s_isp_awb_free_controller (Some c) w).

Definition new_awb_err2 (ret : esp_err_t) (c : handle) (w : store)
    : esp_err_t * isp_awb_ctlr_t * store :=
  new_awb_err1 ret c (s_isp_declaim_awb_controller (Some c) w).

(** The flag word handed to the interrupt allocator. *)
Definition awb_intr_alloc_flags (cfg : esp_isp_awb_config_t) : Z :=
  let intr_priority :=
    if (0 <? intr_priority cfg) && (intr_priority cfg <=? 7)
    then BIT (intr_priority cfg)
    else ESP_INTR_FLAG_LOWMED pf in
  Z.lor (ISP_INTR_ALLOC_FLAGS pf) intr_priority.

(** Registers written before the ranges are checked. *)
Definition awb_configure_hw (cfg : esp_isp_awb_config_t) (h : isp_hw_t) : isp_hw_t :=
  isp_ll_awb_enable_algorithm_mode true
    (isp_ll_awb_set_sample_point (sample_point cfg)
       (isp_ll_awb_enable false h)).

Definition esp_isp_new_awb_controller (E : alloc_env)
    (proc : isp_proc_handle_t) (awb_cfg : option esp_isp_awb_config_t)
    (ret_hdl : bool) (w : store) : esp_err_t * isp_awb_ctlr_t * store :=
  match proc, awb_cfg, ret_hdl with
  | Some p, Some cfg, true =>
    match heap_caps_calloc E with
    | None => (ESP_ERR_NO_MEM, None, w)
    | Some c =>
      let w := set_ctlrs (insert c calloc_ctlr) w in
      match xQueueCreateWithCaps E with
      | None => new_awb_err1 ESP_ERR_NO_MEM c w
      | Some q =>
        let w := set_queues (insert q None)
                   (set_ctlrs (alter (with_evt_que (Some q)) c) w) in
        match xSemaphoreCreateBinaryWithCaps E with
        | None => new_awb_err1 ESP_ERR_NO_MEM c w
        | Some s =>
          (* a binary semaphore is created empty *)
          let w := set_sems (insert s false)
                     (set_ctlrs (alter (with_stat_lock (Some s)) c) w) in
          let w := set_ctlrs (alter (with_fsm ISP_FSM_INIT) c) w in
          let w := set_ctlrs (alter (with_isp_proc (Some p)) c) w in
          (* Claim an AWB controller *)
          match s_isp_claim_awb_controller p c w with
          | (ESP_OK, w) =>
            (* Register the AWB ISR *)
            let flags := awb_intr_alloc_flags cfg in
            let '(rc, ih) := esp_intr_alloc_intrstatus E flags in
            let w := match ih with
                     | Some i =>
                         set_intrs (insert i (mk_intr c flags false))
                           (set_ctlrs (alter (with_intr_handle (Some i)) c) w)
                     | None => w
                     end in
            if decide (rc = ESP_OK) then
              (* Configure the hardware *)
              let w := set_procs (alter (with_hw (awb_configure_hw cfg)) p) w in
              if negb (isp_hal_awb_set_window_range pf (window cfg))
              then new_awb_err2 ESP_ERR_INVALID_ARG c w else
              let lum_range := luminance (white_patch cfg) in
              if negb (isp_hal_awb_set_luminance_range pf (u32_min lum_range) (u32_max lum_range))
              then new_awb_err2 ESP_ERR_INVALID_ARG c w else
              let rg_range := red_green_ratio (white_patch cfg) in
              if negb (float_lt (f_min rg_range) (f_max rg_range) &&
                       float_ge (f_min rg_range) float_zero &&
                       isp_hal_awb_set_rg_ratio_range pf (f_min rg_range) (f_max rg_range))
              then new_awb_err2 ESP_ERR_INVALID_ARG c w else
              let bg_range := blue_green_ratio (white_patch cfg) in
              if negb (float_lt (f_min bg_range) (f_max bg_range) &&
                       float_ge (f_min bg_range) float_zero &&
                       isp_hal_awb_set_bg_ratio_range pf (f_min bg_range) (f_max bg_range))
              then new_awb_err2 ESP_ERR_INVALID_ARG c w else
              (ESP_OK, Some c, w)
            else new_awb_err2 rc c w
          | (rc, w) => new_awb_err1 rc c w
          end
        end
      end
    end
  | _, _, _ => (ESP_ERR_INVALID_ARG, None, w)
  end.

Definition esp_isp_del_awb_controller (ctlr : isp_awb_ctlr_t) (w : store)
    : esp_err_t * store :=
  match ctlr with
  | Some c =>
    match isp_proc (ctlrs w !!! c) with
    | Some p =>
      if decide (awb_ctlr (procs w !!! p) = Some c) then
        if decide (fsm (ctlrs w !!! c) = ISP_FSM_INIT) then
          let w := s_isp_declaim_awb_controller (Some c) w in
          let w := set_procs (alter (with_hw (isp_ll_awb_enable_algorithm_mode false)) p) w in
          (ESP_OK, s_isp_awb_free_controller (Some c) w)
        else (ESP_ERR_INVALID_STATE, w)
      else (ESP_ERR_INVALID_ARG, w)
    | None => (ESP_ERR_INVALID_ARG, w)
    end
  | None => (ESP_ERR_INVALID_ARG, w)
  end.

End Lifecycle.

(** ** The statistics API as programs over the primitives it calls

    The calls below run on one controller and the processor it is attached
    to. [awb_machine] is that pair seen through the controller's handles:
    the struct fields, the state of its semaphore (the Gate) and of its
    queue (the Relay), and the hardware block. *)

Record awb_machine : Type := mk_machine {
  m_fsm : isp_fsm_t;
  m_isp_proc : isp_proc_handle_t;
  m_stat_lock : bool;                          (* token present: Gate available *)
  m_evt_que : option isp_awb_stat_result_t;    (* the item in the queue, if any *)
  m_cbs : esp_isp_awb_cbs_t;
  m_user_data : Z;
  m_intr_on : bool;                            (* esp_intr_enable / disable *)
  m_hw : isp_hw_t;
  m_woken : bool;       (* an overwrite from the ISR wakes a higher priority task *)
  m_yields : nat        (* portYIELD_FROM_ISR requests *)
}.

(** The machine a controller handle designates in a store. *)
Definition focus (w : store) (c : handle) : awb_machine :=
  let obj := ctlrs w !!! c in
  mk_machine (fsm obj) (isp_proc obj)
    (from_option (fun s => default false (sems w !! s)) false (stat_lock obj))
    (from_option (fun q => default None (queues w !! q)) None (evt_que obj))
    (cbs obj) (user_data obj)
    (from_option (fun i => from_option intr_enabled false (intrs w !! i)) false
                 (intr_handle obj))
    (from_option (fun p => hal_hw (procs w !!! p)) hw_reset (isp_proc obj))
    false 0.

(** The primitives: loads and stores of struct fields, RTOS calls on the
    controller's semaphore and queue, register accesses. *)
Inductive act : Type -> Type :=
| load_fsm : act isp_fsm_t
| store_fsm (v : isp_fsm_t) : act unit
| load_isp_proc : act isp_proc_handle_t
| load_cbs : act esp_isp_awb_cbs_t
| store_cbs (v : esp_isp_awb_cbs_t) : act unit
| load_user_data : act Z
| store_user_data (v : Z) : act unit
| xSemaphoreTake (ticks : Z) : act bool
| xSemaphoreGive : act unit
| xQueueReset : act unit
| xQueueReceive (ticks : Z) : act (option isp_awb_stat_result_t)
| xQueueOverwriteFromISR (item : isp_awb_stat_result_t) : act bool
| esp_intr_enable : act unit
| esp_intr_disable : act unit
| ll_write (f : isp_hw_t -> isp_hw_t) : act unit
| ll_read {X : Set} (f : isp_hw_t -> X) : act X
| hal_check_clear_intr_event (mask : Z) : act Z
| portYIELD_FROM_ISR : act unit.

Inductive prog (A : Type) : Type :=
| Ret (a : A)
| Vis {X : Type} (e : act X) (k : X -> prog A).

Arguments Ret {A} a.
Arguments Vis {A X} e k.

Fixpoint prog_bind {A B : Type} (f : A -> prog B) (p : prog A) : prog B :=
  match p with
  | Ret a => f a
  | Vis e k => Vis e (fun x => prog_bind f (k x))
  end.

Global Instance prog_mret : MRet prog := @Ret.
Global Instance prog_mbind : MBind prog := @prog_bind.

Definition call {X : Type} (e : act X) : prog X := Vis e Ret.

(** *** Meaning of one primitive, without waiting *)

Definition upd_fsm (v : isp_fsm_t) (m : awb_machine) : awb_machine :=
  mk_machine v (m_isp_proc m) (m_stat_lock m) (m_evt_que m) (m_cbs m)
             (m_user_data m) (m_intr_on m) (m_hw m) (m_woken m) (m_yields m).
Definition upd_stat_lock (v : bool) (m : awb_machine) : awb_machine :=
  mk_machine (m_fsm m) (m_isp_proc m) v (m_evt_que m) (m_cbs m)
             (m_user_data m) (m_intr_on m) (m_hw m) (m_woken m) (m_yields m).
Definition upd_evt_que (v : option isp_awb_stat_result_t) (m : awb_machine) : awb_machine :=
  mk_machine (m_fsm m) (m_isp_proc m) (m_stat_lock m) v (m_cbs m)
             (m_user_data m) (m_intr_on m) (m_hw m) (m_woken m) (m_yields m).
Definition upd_cbs (v : esp_isp_awb_cbs_t) (m : awb_machine) : awb_machine :=
  mk_machine (m_fsm m) (m_isp_proc m) (m_stat_lock m) (m_evt_que m) v
             (m_user_data m) (m_intr_on m) (m_hw m) (m_woken m) (m_yields m).
Definition upd_user_data (v : Z) (m : awb_machine) : awb_machine :=
  mk_machine (m_fsm m) (m_isp_proc m) (m_stat_lock m) (m_evt_que m) (m_cbs m)
             v (m_intr_on m) (m_hw m) (m_woken m) (m_yields m).
Definition upd_intr_on (v : bool) (m : awb_machine) : awb_machine :=
  mk_machine (m_fsm m) (m_isp_proc m) (m_stat_lock m) (m_evt_que m) (m_cbs m)
             (m_user_data m) v (m_hw m) (m_woken m) (m_yields m).
Definition upd_hw (f : isp_hw_t -> isp_hw_t) (m : awb_machine) : awb_machine :=
  mk_machine (m_fsm m) (m_isp_proc m) (m_stat_lock m) (m_evt_que m) (m_cbs m)
             (m_user_data m) (m_intr_on m) (f (m_hw m)) (m_woken m) (m_yields m).
Definition upd_woken (v : bool) (m : awb_machine) : awb_machine :=
  mk_machine (m_fsm m) (m_isp_proc m) (m_stat_lock m) (m_evt_que m) (m_cbs m)
             (m_user_data m) (m_intr_on m) (m_hw m) v (m_yields m).
Definition upd_yields (v : nat) (m : awb_machine) : awb_machine :=
  mk_machine (m_fsm m) (m_isp_proc m) (m_stat_lock m) (m_evt_que m) (m_cbs m)
             (m_user_data m) (m_intr_on m) (m_hw m) (m_woken m) v.

(** A take succeeds at once when the token is there; a receive when the
    queue holds an item. *)
Definition sem_try_take (m : awb_machine) : option (bool * awb_machine) :=
  if m_stat_lock m then Some (true, upd_stat_lock false m) else None.

Definition que_try_receive (m : awb_machine)
    : option (option isp_awb_stat_result_t * awb_machine) :=
  match m_evt_que m with
  | Some r => Some (Some r, upd_evt_que None m)
  | None => None
  end.

(** One primitive executed in one go; a take or a receive that cannot be
    served fails as with a zero block time. *)
Definition step_act {X : Type} (e : act X) (m : awb_machine) : X * awb_machine :=
  match e in act X return X * awb_machine with
  | load_fsm => (m_fsm m, m)
  | store_fsm v => (tt, upd_fsm v m)
  | load_isp_proc => (m_isp_proc m, m)
  | load_cbs => (m_cbs m, m)
  | store_cbs v => (tt, upd_cbs v m)
  | load_user_data => (m_user_data m, m)
  | store_user_data v => (tt, upd_user_data v m)
  | xSemaphoreTake _ => default (false, m) (sem_try_take m)
  | xSemaphoreGive => (tt, upd_stat_lock true m)
  | xQueueReset => (tt, upd_evt_que None m)
  | xQueueReceive _ => default (None, m) (que_try_receive m)
  | xQueueOverwriteFromISR item => (m_woken m, upd_evt_que (Some item) m)
  | esp_intr_enable => (tt, upd_intr_on true m)
  | esp_intr_disable => (tt, upd_intr_on false m)
  | ll_write f => (tt, upd_hw f m)
  | ll_read f => (f (m_hw m), m)
  | hal_check_clear_intr_event mask =>
      let '(ev, h) := isp_hal_check_clear_intr_event mask (m_hw m) in
      (ev, upd_hw (fun _ => h) m)
  | portYIELD_FROM_ISR => (tt, upd_yields (S (m_yields m)) m)
  end.

(** A program that never waits (interrupt context). *)
Fixpoint exec {A : Type} (p : prog A) (m : awb_machine) : A * awb_machine :=
  match p with
  | Ret a => (a, m)
  | Vis e k => let '(x, m') := step_act e m in exec (k x) m'
  end.

Section Api.

Variable pf : platform_t.

(** *** The interrupt handler

    The handler works on the controller it finds in the processor's slot
    ([proc->awb_ctlr]), which is the controller of the machine. *)

Definition s_isp_awb_default_isr : prog unit :=
  awb_events ← call (hal_check_clear_intr_event (ISP_LL_EVENT_AWB_MASK pf));
  need_yield ←
    ((if decide (Z.land awb_events (ISP_LL_EVENT_AWB_FDONE pf) ≠ 0) then
       (* Get the statistics result *)
       wp ← call (ll_read (fun h => white_patch_num (acc h)));
       r ← call (ll_read (fun h => sum_r (acc h)));
       g ← call (ll_read (fun h => sum_g (acc h)));
       b ← call (ll_read (fun h => sum_b (acc h)));
       let edata := mk_edata (mk_result wp r g b) in
       (* Invoke the callback if the callback is registered *)
       cb ← call load_cbs;
       from_cb ←
         (match on_statistics_done cb with
          | Some f => ud ← call load_user_data; mret (f edata ud)
          | None => mret false
          end : prog bool);
       (* Send the event data to the queue, overwrite the legacy one if exist *)
       high_task_awake ← call (xQueueOverwriteFromISR (awb_result edata));
       (* If started continuous sampling, then trigger the next AWB sample *)
       st ← call load_fsm;
       (if decide (st = ISP_FSM_START)
        then call (ll_write (isp_ll_awb_enable true))
        else mret tt : prog unit);;
       mret (from_cb || high_task_awake)
     else mret false) : prog bool);
  if (need_yield : bool) then call portYIELD_FROM_ISR else mret tt.

(** *** What happens while a task is suspended

    One entry of the environment is either a tick of the RTOS clock or an
    interrupt: the handler runs with events [ev] pending and the
    accumulators at [r]; [woken] is the RTOS's answer to the handler's
    push. *)
Inductive env_event : Set :=
| EvTick
| EvIntr (ev : Z) (r : isp_awb_stat_result_t) (woken : bool).

Definition isr_fire (ev : Z) (r : isp_awb_stat_result_t) (woken : bool)
    (m : awb_machine) : awb_machine :=
  snd (exec s_isp_awb_default_isr (upd_woken woken (upd_hw (hw_raise ev r) m))).

Definition env_step (e : env_event) (m : awb_machine) : awb_machine :=
  match e with
  | EvTick => m
  | EvIntr ev r woken => isr_fire ev r woken m
  end.

(** A blocking call with block time [ticks]: served at once if possible,
    failed at once if [ticks] is zero, otherwise the task sleeps through
    the environment until it is served or [ticks] ticks have passed. With
    [portMAX_DELAY] there is no deadline; [None] is a task that never
    wakes up. *)
Fixpoint block_on {X : Type} (try : awb_machine -> option (X * awb_machine))
    (fail : X) (ticks : Z) (tr : list env_event) (m : awb_machine)
    : option (X * awb_machine * list env_event) :=
  match try m with
  | Some (x, m') => Some (x, m', tr)
  | None =>
    if ticks =? 0 then Some (fail, m, tr)
    else
      match tr with
      | [] => if ticks =? portMAX_DELAY then None else Some (fail, m, [])
      | EvTick :: tr' =>
          block_on try fail (if ticks =? portMAX_DELAY then ticks else ticks - 1) tr' m
      | e :: tr' => block_on try fail ticks tr' (env_step e m)
      end
  end.

Definition perform {X : Type} (e : act X) (tr : list env_event) (m : awb_machine)
    : option (X * awb_machine * list env_event) :=
  match e in act X return option (X * awb_machine * list env_event) with
  | xSemaphoreTake ticks => block_on sem_try_take false ticks tr m
  | xQueueReceive ticks => block_on que_try_receive None ticks tr m
  | e' => Some (step_act e' m, tr)
  end.

(** A task running a program against an environment trace. The
    environment is served only while the task is suspended in a take or a
    receive: [run] tells what a call does when no interrupt is served
    between two of its other primitives. The driver masks no interrupt
    there; what a call does when the handler runs between any two
    primitives is told by [interleave] below. *)
Fixpoint run {A : Type} (p : prog A) (tr : list env_event) (m : awb_machine)
    : option (A * awb_machine * list env_event) :=
  match p with
  | Ret a => Some (a, m, tr)
  | Vis e k =>
      match perform e tr m with
      | Some (x, m', tr') => run (k x) tr' m'
      | None => None
      end
  end.

(** *** The API *)

Definition esp_isp_awb_controller_enable (ctlr : isp_awb_ctlr_t) : prog esp_err_t :=
  if decide (ctlr = None) then mret ESP_ERR_INVALID_ARG else
  p ← call load_isp_proc;
  if decide (p = None) then mret ESP_ERR_INVALID_ARG else
  st ← call load_fsm;
  if decide (st ≠ ISP_FSM_INIT) then mret ESP_ERR_INVALID_STATE else
  call esp_intr_enable;;
  call (ll_write (isp_ll_awb_clk_enable true));;
  call (ll_write (isp_ll_enable_intr true));;
  call xSemaphoreGive;;
  call (store_fsm ISP_FSM_ENABLE);;
  mret ESP_OK.

Definition esp_isp_awb_controller_disable (ctlr : isp_awb_ctlr_t) : prog esp_err_t :=
  if decide (ctlr = None) then mret ESP_ERR_INVALID_ARG else
  p ← call load_isp_proc;
  if decide (p = None) then mret ESP_ERR_INVALID_ARG else
  st ← call load_fsm;
  if decide (st ≠ ISP_FSM_ENABLE) then mret ESP_ERR_INVALID_STATE else
  call (ll_write (isp_ll_enable_intr false));;
  call (ll_write (isp_ll_awb_clk_enable false));;
  call esp_intr_disable;;
  call (store_fsm ISP_FSM_INIT);;
  call (xSemaphoreTake 0);;
  mret ESP_OK.

(** [out_res] is the caller's buffer ([None] for [NULL]); the second
    component of the result is the buffer when the call returns. *)
Definition esp_isp_awb_controller_get_oneshot_statistics (ctlr : isp_awb_ctlr_t)
    (timeout_ms : Z) (out_res : option isp_awb_stat_result_t)
    : prog (esp_err_t * option isp_awb_stat_result_t) :=
  if negb (bool_decide (is_Some ctlr) &&
           (bool_decide (is_Some out_res) || (timeout_ms =? 0)))
  then mret (ESP_ERR_INVALID_ARG, out_res) else
  st ← call load_fsm;
  if decide (st ≠ ISP_FSM_ENABLE) then mret (ESP_ERR_INVALID_STATE, out_res) else
  let ticks := if timeout_ms <? 0 then portMAX_DELAY else pdMS_TO_TICKS pf timeout_ms in
  call (xSemaphoreTake ticks);;
  (* Update state to avoid race condition *)
  call (store_fsm ISP_FSM_START);;
  let ret := ESP_OK in
  (* Reset the queue in case receiving the legacy data in the queue *)
  call xQueueReset;;
  (* Start the AWB white patch statistics and waiting it done *)
  call (ll_write (isp_ll_awb_enable true));;
  (* Wait the statistics to finish and receive the result from the queue *)
  '(ret, out_res) ←
    (if 0 <? ticks then
       got ← call (xQueueReceive ticks);
       match (got : option isp_awb_stat_result_t) with
       | Some item => mret (ret, Some item)
       | None => mret (ESP_ERR_TIMEOUT, out_res)
       end
     else mret (ret, out_res));
  (* Stop the AWB white patch statistics *)
  call (ll_write (isp_ll_awb_enable false));;
  call (store_fsm ISP_FSM_ENABLE);;
  call xSemaphoreGive;;
  mret (ret, out_res).

Definition esp_isp_awb_controller_start_continuous_statistics (ctlr : isp_awb_ctlr_t)
    : prog esp_err_t :=
  if decide (ctlr = None) then mret ESP_ERR_INVALID_ARG else
  st ← call load_fsm;
  if decide (st ≠ ISP_FSM_ENABLE) then mret ESP_ERR_INVALID_STATE else
  taken ← call (xSemaphoreTake 0);
  if negb taken then mret ESP_ERR_INVALID_STATE else
  call (store_fsm ISP_FSM_START);;
  call (ll_write (isp_ll_awb_enable true));;
  mret ESP_OK.

Definition esp_isp_awb_controller_stop_continuous_statistics (ctlr : isp_awb_ctlr_t)
    : prog esp_err_t :=
  if decide (ctlr = None) then mret ESP_ERR_INVALID_ARG else
  st ← call load_fsm;
  if decide (st ≠ ISP_FSM_START) then mret ESP_ERR_INVALID_STATE else
  call (ll_write (isp_ll_awb_enable false));;
  call (store_fsm ISP_FSM_ENABLE);;
  call xSemaphoreGive;;
  mret ESP_OK.

(** [in_iram] and [internal] are the answers of [esp_ptr_in_iram] on the
    callback and of [esp_ptr_internal] on the user context; [user_data]
    zero is [NULL]. The residency check looks at [cbs->on_env_change], a
    field this model does not distinguish from the registered callback. *)
Definition esp_isp_awb_register_event_callbacks (ctlr : isp_awb_ctlr_t)
    (new_cbs : option esp_isp_awb_cbs_t) (new_user_data : Z)
    (in_iram internal : bool) : prog esp_err_t :=
  match ctlr, new_cbs with
  | Some _, Some cb =>
    st ← call load_fsm;
    if decide (st ≠ ISP_FSM_INIT) then mret ESP_ERR_INVALID_STATE else
    if CONFIG_ISP_ISR_IRAM_SAFE pf &&
       bool_decide (is_Some (on_statistics_done cb)) && negb in_iram
    then mret ESP_ERR_INVALID_ARG else
    if CONFIG_ISP_ISR_IRAM_SAFE pf &&
       bool_decide (new_user_data ≠ 0) && negb internal
    then mret ESP_ERR_INVALID_ARG else
    call (store_cbs (mk_cbs (on_statistics_done cb)));;
    call (store_user_data new_user_data);;
    mret ESP_OK
  | _, _ => mret ESP_ERR_INVALID_ARG
  end.

End Api.

(** ** Several tasks on one controller

    Tasks are preempted between primitives. A schedule names, step by
    step, the task that performs its next primitive, a task whose blocking
    call runs into its deadline, or an interrupt. A task whose take or
    receive cannot be served and has a non-zero block time is suspended
    and cannot be picked by [Run]. *)

Inductive sched_step : Set :=
| Run (t : nat)
| Deadline (t : nat)
| Interrupt (ev : Z) (r : isp_awb_stat_result_t) (woken : bool).

Definition task_step {A : Type} (p : prog A) (m : awb_machine)
    : option (prog A * awb_machine) :=
  match p with
  | Ret _ => None
  | Vis e k =>
      match e in act X return (X -> prog A) -> option (prog A * awb_machine) with
      | xSemaphoreTake ticks => fun k =>
          match sem_try_take m with
          | Some (x, m') => Some (k x, m')
          | None => if ticks =? 0 then Some (k false, m) else None
          end
      | xQueueReceive ticks => fun k =>
          match que_try_receive m with
          | Some (x, m') => Some (k x, m')
          | None => if ticks =? 0 then Some (k None, m) else None
          end
      | e' => fun k => let '(x, m') := step_act e' m in Some (k x, m')
      end k
  end.

Definition task_deadline {A : Type} (p : prog A) (m : awb_machine)
    : option (prog A * awb_machine) :=
  match p with
  | Ret _ => None
  | Vis e k =>
      match e in act X return (X -> prog A) -> option (prog A * awb_machine) with
      | xSemaphoreTake ticks => fun k =>
          match sem_try_take m with
          | Some _ => None
          | None => if (0 <? ticks) && negb (ticks =? portMAX_DELAY)
                    then Some (k false, m) else None
          end
      | xQueueReceive ticks => fun k =>
          match que_try_receive m with
          | Some _ => None
          | None => if (0 <? ticks) && negb (ticks =? portMAX_DELAY)
                    then Some (k None, m) else None
          end
      | _ => fun _ => None
      end k
  end.

Section Tasks.

Variable pf : platform_t.
Context {A : Type}.

Definition sched_one (s : sched_step) (cfg : awb_machine * list (prog A))
    : option (awb_machine * list (prog A)) :=
  let '(m, ts) := cfg in
  match s with
  | Run t =>
      p ← ts !! t;
      '(p', m') ← task_step p m;
      Some (m', <[t := p']> ts)
  | Deadline t =>
      p ← ts !! t;
      '(p', m') ← task_deadline p m;
      Some (m', <[t := p']> ts)
  | Interrupt ev r woken => Some (isr_fire pf ev r woken m, ts)
  end.

Fixpoint interleave (ss : list sched_step) (cfg : awb_machine * list (prog A))
    : option (awb_machine * list (prog A)) :=
  match ss with
  | [] => Some cfg
  | s :: ss' =>
      match sched_one s cfg with
      | Some cfg' => interleave ss' cfg'
      | None => None
      end
  end.

End Tasks.

(** ** A concrete platform and controller for the examples *)

Definition sample_platform : platform_t :=
  mk_platform 100 2304 14 (BIT 12) (BIT 12) false
    (fun win => (fst (top_left win) <=? fst (btm_right win)) &&
                (snd (top_left win) <=? snd (btm_right win)))
    (fun lo hi => lo <=? hi)
    (fun _ _ => true) (fun _ _ => true).

(** The controller as [esp_isp_new_awb_controller] leaves it: state Init,
    no token in the semaphore, empty queue, engine configured and idle. *)
Definition fresh_machine (p : handle) (h : isp_hw_t) : awb_machine :=
  mk_machine ISP_FSM_INIT (Some p) false None (mk_cbs None) 0 false h false 0.

Definition sample_hw : isp_hw_t :=
  mk_hw false false false true 0 0 (mk_result 0 0 0 0) 0.

Definition sample_fresh : awb_machine := fresh_machine 1%positive sample_hw.

(** [sample_fresh] after [esp_isp_awb_controller_enable]. *)
Definition sample_enabled : awb_machine :=
  mk_machine ISP_FSM_ENABLE (Some 1%positive) true None (mk_cbs None) 0 true
    (mk_hw false true true true 0 0 (mk_result 0 0 0 0) 0) false 0.

(** ** Vocabulary of the properties *)

Section Notions.

Variable pf : platform_t.

(** The phases of a one-shot request once its checks have passed. *)
Definition oneshot_ticks (timeout_ms : Z) : Z :=
  if timeout_ms <? 0 then portMAX_DELAY else pdMS_TO_TICKS pf timeout_ms.

Definition oneshot_arm (m : awb_machine) : awb_machine :=
  upd_hw (isp_ll_awb_enable true) (upd_evt_que None (upd_fsm ISP_FSM_START m)).

Definition oneshot_finish (m : awb_machine) : awb_machine :=
  upd_stat_lock true (upd_fsm ISP_FSM_ENABLE (upd_hw (isp_ll_awb_enable false) m)).

(** The machine after each of the calls that do not wait, when it
    succeeds. *)
Definition enabled_from (m : awb_machine) : awb_machine :=
  upd_fsm ISP_FSM_ENABLE
    (upd_stat_lock true
       (upd_hw (isp_ll_enable_intr true)
          (upd_hw (isp_ll_awb_clk_enable true) (upd_intr_on true m)))).

Definition disabled_from (m : awb_machine) : awb_machine :=
  upd_stat_lock false
    (upd_fsm ISP_FSM_INIT
       (upd_intr_on false
          (upd_hw (isp_ll_awb_clk_enable false)
             (upd_hw (isp_ll_enable_intr false) m)))).

Definition started_from (m : awb_machine) : awb_machine :=
  upd_hw (isp_ll_awb_enable true) (upd_fsm ISP_FSM_START (upd_stat_lock false m)).

Definition stopped_from (m : awb_machine) : awb_machine :=
  upd_stat_lock true (upd_fsm ISP_FSM_ENABLE (upd_hw (isp_ll_awb_enable false) m)).

(** The handler sees a finished window. *)
Definition fdone_pending (ev : Z) : bool :=
  negb (Z.land (Z.land ev (ISP_LL_EVENT_AWB_MASK pf)) (ISP_LL_EVENT_AWB_FDONE pf) =? 0).

(** What the tasks of this driver can see of a controller. *)
Definition observe (m : awb_machine)
    : isp_fsm_t * bool * option isp_awb_stat_result_t * bool * bool * bool * bool :=
  (m_fsm m, m_stat_lock m, m_evt_que m, awb_en (m_hw m),
   awb_clk_en (m_hw m), awb_intr_en (m_hw m), m_intr_on m).

(** The environment running for a while. *)
Definition env_steps (evs : list env_event) (m : awb_machine) : awb_machine :=
  foldl (fun acc e => env_step pf e acc) m evs.

Definition wait_view {X : Type} (o : option (X * awb_machine * list env_event)) :=
  option_map (fun '(x, m, tr) => (x, observe m, tr)) o.

(** One cycle: [enable], then one one-shot request. *)
Definition enable_oneshot_cycle (c : handle) (timeout_ms : Z)
    (out_res : option isp_awb_stat_result_t)
    : prog (esp_err_t * (esp_err_t * option isp_awb_stat_result_t)) :=
  r1 ← esp_isp_awb_controller_enable (Some c);
  r2 ← esp_isp_awb_controller_get_oneshot_statistics pf (Some c) timeout_ms out_res;
  mret (r1, r2).

End Notions.

(** ** Two one-shot requests on one controller *)

(** The primitive a task is about to perform. *)
Definition at_gate {A : Type} (p : prog A) : bool :=
  match p with
  | Vis (xSemaphoreTake _) _ => true
  | _ => false
  end.

Definition at_relay {A : Type} (p : prog A) : bool :=
  match p with
  | Vis (xQueueReceive _) _ => true
  | _ => false
  end.

Definition returned {A : Type} (p : prog A) : option A :=
  match p with
  | Ret a => Some a
  | _ => None
  end.

(** Task 0 waits without a deadline, task 1 for twenty milliseconds. *)
Definition two_requests
    : list (prog (esp_err_t * option isp_awb_stat_result_t)) :=
  [ esp_isp_awb_controller_get_oneshot_statistics sample_platform (Some 1%positive) (-1)
      (Some (mk_result 0 0 0 0));
    esp_isp_awb_controller_get_oneshot_statistics sample_platform (Some 1%positive) 20
      (Some (mk_result 0 0 0 0)) ].

(** Both pass the state check, task 0 takes the Gate. *)
Definition race_checks : list sched_step := [Run 0; Run 1; Run 0]%nat.

(** Task 1's wait for the Gate runs out; both arm the engine. *)
Definition race_armed : list sched_step :=
  race_checks ++ [Deadline 1; Run 0; Run 0; Run 0; Run 1; Run 1; Run 1]%nat.

(** A window finishes; task 1 receives it and leaves. *)
Definition race_served : list sched_step :=
  race_armed ++ [Interrupt (BIT 12) (mk_result 5 10 20 30) true;
                 Run 1; Run 1; Run 1; Run 1]%nat.

Definition race_view {A : Type} (f : prog A -> bool)
    (o : option (awb_machine * list (prog A))) :=
  option_map (fun '(m, ts) =>
                (m_fsm m, m_stat_lock m, awb_en (m_hw m), awb_triggers (m_hw m), map f ts)) o.

(** ** Outcomes of construction *)

Section ConstructionOutcome.

Variable pf : platform_t.

(** The range checks of the constructor, in its order. *)
Definition cfg_ranges_ok (cfg : esp_isp_awb_config_t) : bool :=
  isp_hal_awb_set_window_range pf (window cfg) &&
  isp_hal_awb_set_luminance_range pf (u32_min (luminance (white_patch cfg)))
                                     (u32_max (luminance (white_patch cfg))) &&
  (float_lt (f_min (red_green_ratio (white_patch cfg)))
            (f_max (red_green_ratio (white_patch cfg))) &&
   float_ge (f_min (red_green_ratio (white_patch cfg))) float_zero &&
   isp_hal_awb_set_rg_ratio_range pf (f_min (red_green_ratio (white_patch cfg)))
                                     (f_max (red_green_ratio (white_patch cfg)))) &&
  (float_lt (f_min (blue_green_ratio (white_patch cfg)))
            (f_max (blue_green_ratio (white_patch cfg))) &&
   float_ge (f_min (blue_green_ratio (white_patch cfg))) float_zero &&
   isp_hal_awb_set_bg_ratio_range pf (f_min (blue_green_ratio (white_patch cfg)))
                                     (f_max (blue_green_ratio (white_patch cfg)))).

(** The allocators serve the constructor: the processor is live and its
    slot empty, and memory, queue, semaphore and interrupt are granted at
    addresses not in use. *)
Definition alloc_ok (E : alloc_env) (cfg : esp_isp_awb_config_t) (p : handle)
    (w : store) (c q s i : handle) : Prop :=
  (exists P, procs w !! p = Some P /\ awb_ctlr P = None) /\
  heap_caps_calloc E = Some c /\ ctlrs w !! c = None /\
  xQueueCreateWithCaps E = Some q /\ queues w !! q = None /\
  xSemaphoreCreateBinaryWithCaps E = Some s /\ sems w !! s = None /\
  esp_intr_alloc_intrstatus E (awb_intr_alloc_flags pf cfg) = (ESP_OK, Some i) /\
  intrs w !! i = None.

(** The store after a successful construction. *)
Definition new_awb_store (cfg : esp_isp_awb_config_t) (p c q s i : handle)
    (w : store) : store :=
  mk_store
    (alter (with_hw (awb_configure_hw cfg)) p
       (alter (with_awb_ctlr (Some c)) p (procs w)))
    (<[c := mk_ctlr ISP_FSM_INIT (Some i) (Some p) (Some q) (Some s) (mk_cbs None) 0]>
       (ctlrs w))
    (<[q := None]> (queues w))
    (<[s := false]> (sems w))
    (<[i := mk_intr c (awb_intr_alloc_flags pf cfg) false]> (intrs w)).

(** The store after a construction that failed on a range check: only the
    registers written before the checks differ. *)
Definition new_awb_rolled_back (cfg : esp_isp_awb_config_t) (p : handle)
    (w : store) : store :=
  set_procs (alter (with_hw (awb_configure_hw cfg)) p) w.

End ConstructionOutcome.

(** ** Concrete stores and configurations for the examples *)

(** One processor with an empty slot and nothing allocated. *)
Definition sample_store : store :=
  mk_store {[ 1%positive := mk_proc None hw_reset ]} ∅ ∅ ∅ ∅.

Definition sample_env : alloc_env :=
  mk_env (Some 10%positive) (Some 11%positive) (Some 12%positive)
         (fun _ => (ESP_OK, Some 13%positive)).

(** 0.3 and 0.5 as binary32 values. *)
Definition f32_0_3 : spec_float := S754_finite false 10066330 (-25).
Definition f32_0_5 : spec_float := S754_finite false 8388608 (-24).

Definition sample_window : isp_window_t := mk_window (0, 0) (100, 100).

(** Red/green range with min 0.5 above max 0.3; interrupt priority 0. *)
Definition sample_cfg_bad_rg : esp_isp_awb_config_t :=
  mk_config 0 sample_window
    (mk_white_patch (mk_u32_range 0 255)
       (mk_float_range f32_0_5 f32_0_3) (mk_float_range f32_0_3 f32_0_5))
    0.

Definition sample_cfg : esp_isp_awb_config_t :=
  mk_config 0 sample_window
    (mk_white_patch (mk_u32_range 0 255)
       (mk_float_range f32_0_3 f32_0_5) (mk_float_range f32_0_3 f32_0_5))
    0.

(** A store in which controller 10 owns the slot of processor 1 and
    controller 20 points at the same processor. *)
Definition two_ctlr_store : store :=
  mk_store
    {[ 1%positive := mk_proc (Some 10%positive) hw_reset ]}
    {[ 10%positive := mk_ctlr ISP_FSM_INIT None (Some 1%positive) None None (mk_cbs None) 0;
       20%positive := mk_ctlr ISP_FSM_INIT None (Some 1%positive) None None (mk_cbs None) 0 ]}
    ∅ ∅ ∅.

(** ** Vocabulary of the further properties *)

(** A ratio range the constructor refuses whatever the HAL thinks of it:
    equal bounds, or a bound that is not a number. *)
Definition degenerate_range (r : isp_float_range_t) : Prop :=
  f_min r = f_max r \/ f_min r = S754_nan \/ f_max r = S754_nan.

(** The calls of the statistics API on one controller. *)
Inductive api_call : Type :=
| CallRegister (new_cbs : option esp_isp_awb_cbs_t) (new_user_data : Z)
               (in_iram internal : bool)
| CallEnable
| CallDisable
| CallOneshot (timeout_ms : Z) (out_res : option isp_awb_stat_result_t)
| CallStart
| CallStop.

Definition api_prog (pf : platform_t) (ctlr : isp_awb_ctlr_t) (call : api_call)
    : prog (esp_err_t * option isp_awb_stat_result_t) :=
  match call with
  | CallRegister cb ud iram internal =>
      rc ← esp_isp_awb_register_event_callbacks pf ctlr cb ud iram internal; mret (rc, None)
  | CallEnable => rc ← esp_isp_awb_controller_enable ctlr; mret (rc, None)
  | CallDisable => rc ← esp_isp_awb_controller_disable ctlr; mret (rc, None)
  | CallOneshot timeout_ms out_res =>
      esp_isp_awb_controller_get_oneshot_statistics pf ctlr timeout_ms out_res
  | CallStart =>
      rc ← esp_isp_awb_controller_start_continuous_statistics ctlr; mret (rc, None)
  | CallStop =>
      rc ← esp_isp_awb_controller_stop_continuous_statistics ctlr; mret (rc, None)
  end.

(** The state each call requires, and the state it leaves on success. *)
Definition call_requires (call : api_call) : isp_fsm_t :=
  match call with
  | CallRegister _ _ _ _ | CallEnable => ISP_FSM_INIT
  | CallDisable | CallOneshot _ _ | CallStart => ISP_FSM_ENABLE
  | CallStop => ISP_FSM_START
  end.

Definition call_leaves (call : api_call) : isp_fsm_t :=
  match call with
  | CallRegister _ _ _ _ | CallDisable => ISP_FSM_INIT
  | CallEnable | CallOneshot _ _ | CallStop => ISP_FSM_ENABLE
  | CallStart => ISP_FSM_START
  end.

(** The settings no statistics call is meant to touch: the processor, the
    callback and its context, and the arming of interrupt and clock. *)
Definition callbacks_of (m : awb_machine) : esp_isp_awb_cbs_t * Z :=
  (m_cbs m, m_user_data m).

Definition arming_of (m : awb_machine) : isp_proc_handle_t * bool * bool * bool :=
  (m_isp_proc m, m_intr_on m, awb_clk_en (m_hw m), awb_intr_en (m_hw m)).

(** The calls that change the callback, and those that change the
    arming; the buffer a call was given. *)
Definition touches_callbacks (call : api_call) : bool :=
  match call with
  | CallRegister _ _ _ _ => true
  | _ => false
  end.

Definition touches_arming (call : api_call) : bool :=
  match call with
  | CallEnable | CallDisable => true
  | _ => false
  end.

Definition call_out_res (call : api_call) : option isp_awb_stat_result_t :=
  match call with
  | CallOneshot _ out_res => out_res
  | _ => None
  end.

(** The machine after a successful registration. *)
Definition registered_from (cb : esp_isp_awb_cbs_t) (ud : Z) (m : awb_machine)
    : awb_machine :=
  upd_user_data ud (upd_cbs (mk_cbs (on_statistics_done cb)) m).

(** What the registered callback answers on a result. *)
Definition callback_says (m : awb_machine) (r : isp_awb_stat_result_t) : bool :=
  match on_statistics_done (m_cbs m) with
  | Some f => f (mk_edata r) (m_user_data m)
  | None => false
  end.

Section StretchNotions.

Variable pf : platform_t.

(** Finished windows in a stretch of the environment, the result of the
    last of them, and the yields they ask for. *)
Fixpoint completions (evs : list env_event) : nat :=
  match evs with
  | [] => 0
  | EvTick :: evs' => completions evs'
  | EvIntr ev _ _ :: evs' =>
      ((if fdone_pending pf ev then 1 else 0) + completions evs')%nat
  end.

Fixpoint last_window (evs : list env_event) (q : option isp_awb_stat_result_t)
    : option isp_awb_stat_result_t :=
  match evs with
  | [] => q
  | EvTick :: evs' => last_window evs' q
  | EvIntr ev r _ :: evs' => last_window evs' (if fdone_pending pf ev then Some r else q)
  end.

Fixpoint yield_requests (m : awb_machine) (evs : list env_event) : nat :=
  match evs with
  | [] => 0
  | EvTick :: evs' => yield_requests m evs'
  | EvIntr ev r woken :: evs' =>
      ((if fdone_pending pf ev && (callback_says m r || woken) then 1 else 0)
       + yield_requests m evs')%nat
  end.

End StretchNotions.

(** Interrupt and clock are armed. *)
Definition armed (m : awb_machine) : Prop :=
  m_intr_on m = true /\ awb_clk_en (m_hw m) = true /\ awb_intr_en (m_hw m) = true.

(** [disable], then [enable]. *)
Definition disable_enable_cycle (c : handle) : prog (esp_err_t * esp_err_t) :=
  r1 ← esp_isp_awb_controller_disable (Some c);
  r2 ← esp_isp_awb_controller_enable (Some c);
  mret (r1, r2).

(** A schedule made of task steps only. *)
Definition task_steps_only (ss : list sched_step) : bool :=
  forallb (fun s => match s with Interrupt _ _ _ => false | _ => true end) ss.

(** Two tasks calling [start_continuous] on the same controller. *)
Definition two_starts (c : handle) : list (prog esp_err_t) :=
  [ esp_isp_awb_controller_start_continuous_statistics (Some c);
    esp_isp_awb_controller_start_continuous_statistics (Some c) ].

(** What "nothing" means: no handle, and slot, tables and other
    processors as before. *)
Definition construction_undone (p : handle) (w : store)
    (res : esp_err_t * isp_awb_ctlr_t * store) : Prop :=
  let '(rc, hdl, w') := res in
  rc ≠ ESP_OK /\ hdl = None /\
  awb_ctlr (procs w' !!! p) = awb_ctlr (procs w !!! p) /\
  ctlrs w' = ctlrs w /\ queues w' = queues w /\
  sems w' = sems w /\ intrs w' = intrs w /\
  (forall p', p' ≠ p -> procs w' !! p' = procs w !! p').

(** Allocators that run out of memory at the queue, and an interrupt
    allocator that refuses. *)
Definition sample_env_no_queue : alloc_env :=
  mk_env (Some 10%positive) None (Some 12%positive) (fun _ => (ESP_OK, Some 13%positive)).

Definition sample_env_intr_refused : alloc_env :=
  mk_env (Some 10%positive) (Some 11%positive) (Some 12%positive)
         (fun _ => (ESP_ERR_NOT_FOUND, None)).

(** Allocators handing out addresses that are free in [two_ctlr_store]. *)
Definition sample_env_30 : alloc_env :=
  mk_env (Some 30%positive) (Some 31%positive) (Some 32%positive)
         (fun _ => (ESP_OK, Some 33%positive)).

(** Blue/green range with equal bounds. *)
Definition sample_cfg_equal_bg : esp_isp_awb_config_t :=
  mk_config 0 sample_window
    (mk_white_patch (mk_u32_range 0 255)
       (mk_float_range f32_0_3 f32_0_5) (mk_float_range f32_0_5 f32_0_5))
    0.

(** A controller at 10 attached to processor 1, whose slot is empty. *)
Definition unclaimed_store : store :=
  mk_store
    {[ 1%positive := mk_proc None hw_reset ]}
    {[ 10%positive := mk_ctlr ISP_FSM_INIT None (Some 1%positive) None None (mk_cbs None) 0 ]}
    ∅ ∅ ∅.

(** A callback that asks for a context switch when white patches were
    found. *)
Definition sample_cb : esp_isp_awb_cbs_t :=
  mk_cbs (Some (fun edata _ => 0 <? white_patch_num (awb_result edata))).

Definition sample_result : isp_awb_stat_result_t := mk_result 5 10 20 30.

(** ** One task preempted by the handler

    The driver masks no interrupt around the primitives of a call, so the
    handler can run between any two of them. A schedule of [interleave]
    with a single task says where: its [Run 0] and [Deadline 0] entries
    are the task's own steps, its [Interrupt] entries runs of the
    handler. *)

(** The number of the task's own steps in a schedule. *)
Fixpoint own_steps (ss : list sched_step) : nat :=
  match ss with
  | [] => 0
  | Interrupt _ _ _ :: ss' => own_steps ss'
  | _ :: ss' => S (own_steps ss')
  end.

Section Preemption.

Variable pf : platform_t.

(** The machine after the interrupts of a schedule have been served. *)
Fixpoint handlers (ss : list sched_step) (m : awb_machine) : awb_machine :=
  match ss with
  | [] => m
  | Interrupt ev r woken :: ss' => handlers ss' (isr_fire pf ev r woken m)
  | _ :: ss' => handlers ss' m
  end.

(** A finished window is served somewhere in the schedule. *)
Fixpoint completion_in (ss : list sched_step) : bool :=
  match ss with
  | [] => false
  | Interrupt ev _ _ :: ss' => fdone_pending pf ev || completion_in ss'
  | _ :: ss' => completion_in ss'
  end.

(** The Relay after the finished windows of the schedule, from content [q]. *)
Fixpoint last_completion (ss : list sched_step) (q : option isp_awb_stat_result_t)
    : option isp_awb_stat_result_t :=
  match ss with
  | [] => q
  | Interrupt ev r _ :: ss' => last_completion ss' (if fdone_pending pf ev then Some r else q)
  | _ :: ss' => last_completion ss' q
  end.

(** A finished window is served while exactly [n] of the task's steps
    are still to come. *)
Fixpoint completion_with_left (n : nat) (ss : list sched_step) : bool :=
  match ss with
  | [] => false
  | Interrupt ev _ _ :: ss' =>
      (fdone_pending pf ev && (own_steps ss' =? n)%nat) || completion_with_left n ss'
  | _ :: ss' => completion_with_left n ss'
  end.

End Preemption.

(** What follows the [n]-th own step of a schedule, and the schedule up to
    its [n+1]-th own step. *)
Fixpoint after_own (n : nat) (ss : list sched_step) : list sched_step :=
  match n, ss with
  | O, _ => ss
  | S _, [] => []
  | S _, Interrupt _ _ _ :: ss' => after_own n ss'
  | S n', _ :: ss' => after_own n' ss'
  end.

Fixpoint before_own (n : nat) (ss : list sched_step) : list sched_step :=
  match ss with
  | [] => []
  | Interrupt ev r woken :: ss' => Interrupt ev r woken :: before_own n ss'
  | s :: ss' =>
      match n with
      | O => []
      | S n' => s :: before_own n' ss'
      end
  end.

(** The entries of a schedule after its [a]-th own step and before its
    [b]-th. *)
Definition between_own (a b : nat) (ss : list sched_step) : list sched_step :=
  before_own (b - a - 1) (after_own a ss).

(** The schedule serves a frame-done interrupt with the accumulators at [r]. *)
Definition window_served (pf : platform_t) (r : isp_awb_stat_result_t)
    (ss : list sched_step) : Prop :=
  exists s1 ev woken s2,
    ss = s1 ++ Interrupt ev r woken :: s2 /\ fdone_pending pf ev = true.

(** How state, Gate and arming go together between the calls of one
    task. *)
Definition discipline (m : awb_machine) : Prop :=
  is_Some (m_isp_proc m) /\
  match m_fsm m with
  | ISP_FSM_INIT => m_stat_lock m = false
  | ISP_FSM_ENABLE => m_stat_lock m = true /\ armed m
  | ISP_FSM_START => m_stat_lock m = false /\ armed m
  end.

Section Reachable.

Variable pf : platform_t.

(** The controllers one task can produce: a new controller, then any
    sequence of API calls that return, each preempted by the handler
    wherever its schedule says, with interrupts between the calls. *)
Inductive reachable (c : handle) : awb_machine -> Prop :=
| reach_new p h :
    awb_en h = false -> reachable c (fresh_machine p h)
| reach_register m cb ud iram internal ss res m' :
    reachable c m ->
    interleave pf ss
      (m, [esp_isp_awb_register_event_callbacks pf (Some c) cb ud iram internal])
    = Some (m', [Ret res]) ->
    reachable c m'
| reach_enable m ss res m' :
    reachable c m ->
    interleave pf ss (m, [esp_isp_awb_controller_enable (Some c)]) = Some (m', [Ret res]) ->
    reachable c m'
| reach_disable m ss res m' :
    reachable c m ->
    interleave pf ss (m, [esp_isp_awb_controller_disable (Some c)]) = Some (m', [Ret res]) ->
    reachable c m'
| reach_oneshot m timeout_ms out_res ss res m' :
    reachable c m ->
    interleave pf ss
      (m, [esp_isp_awb_controller_get_oneshot_statistics pf (Some c) timeout_ms out_res])
    = Some (m', [Ret res]) ->
    reachable c m'
| reach_start m ss res m' :
    reachable c m ->
    interleave pf ss (m, [esp_isp_awb_controller_start_continuous_statistics (Some c)])
    = Some (m', [Ret res]) ->
    reachable c m'
| reach_stop m ss res m' :
    reachable c m ->
    interleave pf ss (m, [esp_isp_awb_controller_stop_continuous_statistics (Some c)])
    = Some (m', [Ret res]) ->
    reachable c m'
| reach_intr m ev r woken :
    reachable c m -> reachable c (isr_fire pf ev r woken m).

End Reachable.

(** [start_continuous], then [stop_continuous]. *)
Definition start_stop_cycle (c : handle) : prog (esp_err_t * esp_err_t) :=
  r1 ← esp_isp_awb_controller_start_continuous_statistics (Some c);
  r2 ← esp_isp_awb_controller_stop_continuous_statistics (Some c);
  mret (r1, r2).

(** *** Schedules for the examples *)

(** What one task and the hardware show after a schedule. *)
Definition solo_view {A : Type} (o : option (awb_machine * list (prog A))) :=
  option_map (fun '(m, ts) =>
                (map returned ts, m_fsm m, m_stat_lock m, awb_en (m_hw m),
                 awb_triggers (m_hw m))) o.

Definition sample_oneshot_20ms : prog (esp_err_t * option isp_awb_stat_result_t) :=
  esp_isp_awb_controller_get_oneshot_statistics sample_platform (Some 1%positive) 20
    (Some (mk_result 0 0 0 0)).

(** The request runs up to its wait on the Relay, the wait runs into its
    deadline, and the request disables the engine. *)
Definition timeout_engine_off : list sched_step :=
  [Run 0; Run 0; Run 0; Run 0; Run 0; Deadline 0; Run 0]%nat.

(** The window finishes now; then the request writes the state, gives the
    Gate and returns. *)
Definition timeout_late_window : list sched_step :=
  timeout_engine_off ++ [Interrupt (BIT 12) sample_result false].

Definition timeout_returned : list sched_step :=
  timeout_late_window ++ [Run 0; Run 0]%nat.

(** [start] in four steps, then [stop] up to the write that disables the
    engine. *)
Definition stop_engine_off : list sched_step :=
  [Run 0; Run 0; Run 0; Run 0; Run 0; Run 0]%nat.

Definition stop_late_window : list sched_step :=
  stop_engine_off ++ [Interrupt (BIT 12) sample_result false].

Definition stop_returned : list sched_step :=
  stop_late_window ++ [Run 0; Run 0]%nat.


(** The enabled controller with a stale item in its Relay. *)
Definition sample_stale : awb_machine :=
  upd_evt_que (Some (mk_result 1 1 1 1)) sample_enabled.

(** A request served by a window that finishes while it waits. *)
Definition served_schedule : list sched_step :=
  [Run 0; Run 0; Run 0; Run 0; Run 0; Interrupt (BIT 12) sample_result true;
   Run 0; Run 0; Run 0; Run 0]%nat.

(** * Properties *)

(** ** Running programs: basic facts *)

Lemma store_eq (w1 w2 : store) :
  procs w1 = procs w2 -> ctlrs w1 = ctlrs w2 -> queues w1 = queues w2 ->
  sems w1 = sems w2 -> intrs w1 = intrs w2 -> w1 = w2.
Proof. destruct w1, w2; cbn; congruence. Qed.

Section RunFacts.

Variable pf : platform_t.

Lemma run_bind {A B : Type} (p : prog A) (f : A -> prog B) tr m :
  run pf (p ≫= f) tr m =
  match run pf p tr m with
  | Some (a, m', tr') => run pf (f a) tr' m'
  | None => None
  end.
Proof.
  revert tr m. induction p as [a | X e k IH]; intros tr m; [reflexivity |].
  unfold mbind, prog_mbind. cbn [prog_bind run].
  destruct (perform pf e tr m) as [[[x m'] tr'] |]; [apply IH | reflexivity].
Qed.

Lemma block_on_served {X : Type} (try : awb_machine -> option (X * awb_machine))
    fail ticks tr m x m' :
  try m = Some (x, m') -> block_on pf try fail ticks tr m = Some (x, m', tr).
Proof. intros H. destruct tr; cbn [block_on]; rewrite H; reflexivity. Qed.

Lemma block_on_poll {X : Type} (try : awb_machine -> option (X * awb_machine))
    fail tr m :
  try m = None -> block_on pf try fail 0 tr m = Some (fail, m, tr).
Proof. intros H. destruct tr; cbn [block_on]; rewrite H; reflexivity. Qed.

(** A wait with a deadline always ends. *)
Lemma block_on_returns {X : Type} (try : awb_machine -> option (X * awb_machine))
    fail ticks tr m :
  0 <= ticks < portMAX_DELAY ->
  is_Some (block_on pf try fail ticks tr m).
Proof.
  revert ticks m. induction tr as [| e tr IH]; intros ticks m Hr; cbn [block_on].
  - destruct (try m) as [[x m'] |]; [eauto |].
    destruct (ticks =? 0); [eauto |].
    destruct (Z.eqb_spec ticks portMAX_DELAY); [lia | eauto].
  - destruct (try m) as [[x m'] |]; [eauto |].
    destruct (Z.eqb_spec ticks 0); [eauto |].
    destruct e.
    + destruct (Z.eqb_spec ticks portMAX_DELAY); [lia |].
      apply IH. lia.
    + apply IH; assumption.
Qed.

Lemma oneshot_run (c : handle) timeout_ms out_res tr m :
  m_fsm m = ISP_FSM_ENABLE ->
  (is_Some out_res \/ timeout_ms = 0) ->
  run pf (esp_isp_awb_controller_get_oneshot_statistics pf (Some c) timeout_ms out_res) tr m =
  match block_on pf sem_try_take false (oneshot_ticks pf timeout_ms) tr m with
  | None => None
  | Some (_, m1, tr1) =>
      if 0 <? oneshot_ticks pf timeout_ms then
        match block_on pf que_try_receive None (oneshot_ticks pf timeout_ms) tr1 (oneshot_arm m1) with
        | None => None
        | Some (Some item, m3, tr3) => Some ((ESP_OK, Some item), oneshot_finish m3, tr3)
        | Some (None, m3, tr3) => Some ((ESP_ERR_TIMEOUT, out_res), oneshot_finish m3, tr3)
        end
      else Some ((ESP_OK, out_res), oneshot_finish (oneshot_arm m1), tr1)
  end.
Proof.
  intros Hfsm Hargs.
  unfold esp_isp_awb_controller_get_oneshot_statistics.
  assert (Hchk : bool_decide (is_Some (Some c)) &&
                 (bool_decide (is_Some out_res) || (timeout_ms =? 0)) = true).
  { rewrite bool_decide_eq_true_2 by eauto. cbn.
    destruct Hargs as [H | ->].
    - rewrite bool_decide_eq_true_2 by assumption. reflexivity.
    - rewrite orb_true_r. reflexivity. }
  rewrite Hchk. cbn [negb].
  fold (oneshot_ticks pf timeout_ms).
  cbn. rewrite Hfsm.
  destruct (decide (ISP_FSM_ENABLE ≠ ISP_FSM_ENABLE)) as [Hn | _]; [congruence |].
  cbn [run perform].
  destruct (block_on pf sem_try_take false (oneshot_ticks pf timeout_ms) tr m)
    as [[[b m1] tr1] |]; [| reflexivity].
  cbn. destruct (0 <? oneshot_ticks pf timeout_ms); cbn; [| reflexivity].
  fold (oneshot_arm m1).
  destruct (block_on pf que_try_receive None (oneshot_ticks pf timeout_ms) tr1 _)
    as [[[[item |] m3] tr3] |]; reflexivity.
Qed.

End RunFacts.

(** ** The calls that do not wait *)

Section CallFacts.

Variable pf : platform_t.

Lemma enable_run (c : handle) tr m :
  run pf (esp_isp_awb_controller_enable (Some c)) tr m =
  Some (if decide (m_isp_proc m = None) then (ESP_ERR_INVALID_ARG, m)
        else if decide (m_fsm m = ISP_FSM_INIT) then (ESP_OK, enabled_from m)
        else (ESP_ERR_INVALID_STATE, m), tr).
Proof.
  unfold esp_isp_awb_controller_enable. cbn.
  repeat (case_decide; try congruence; cbn); reflexivity.
Qed.

Lemma disable_run (c : handle) tr m :
  run pf (esp_isp_awb_controller_disable (Some c)) tr m =
  Some (if decide (m_isp_proc m = None) then (ESP_ERR_INVALID_ARG, m)
        else if decide (m_fsm m = ISP_FSM_ENABLE) then (ESP_OK, disabled_from m)
        else (ESP_ERR_INVALID_STATE, m), tr).
Proof.
  unfold esp_isp_awb_controller_disable. destruct m as [st p g q cb ud io h wk y]. cbn.
  repeat (case_decide; try congruence; cbn); try reflexivity.
  destruct tr, g; reflexivity.
Qed.

Lemma start_continuous_run (c : handle) tr m :
  run pf (esp_isp_awb_controller_start_continuous_statistics (Some c)) tr m =
  Some (if decide (m_fsm m = ISP_FSM_ENABLE) then
          if m_stat_lock m then (ESP_OK, started_from m)
          else (ESP_ERR_INVALID_STATE, m)
        else (ESP_ERR_INVALID_STATE, m), tr).
Proof.
  unfold esp_isp_awb_controller_start_continuous_statistics. cbn.
  repeat (case_decide; try congruence; cbn); try reflexivity.
  destruct (m_stat_lock m) eqn:Hg.
  - rewrite (block_on_served pf sem_try_take false 0 tr m true (upd_stat_lock false m))
      by (unfold sem_try_take; rewrite Hg; reflexivity).
    reflexivity.
  - rewrite block_on_poll by (unfold sem_try_take; rewrite Hg; reflexivity).
    reflexivity.
Qed.

Lemma stop_continuous_run (c : handle) tr m :
  run pf (esp_isp_awb_controller_stop_continuous_statistics (Some c)) tr m =
  Some (if decide (m_fsm m = ISP_FSM_START) then (ESP_OK, stopped_from m)
        else (ESP_ERR_INVALID_STATE, m), tr).
Proof.
  unfold esp_isp_awb_controller_stop_continuous_statistics. cbn.
  repeat (case_decide; try congruence; cbn); reflexivity.
Qed.

End CallFacts.

(** ** What the interrupt handler does to the machine *)

Section HandlerFacts.

Variable pf : platform_t.

Lemma isr_fire_spec ev r woken m :
  let m' := isr_fire pf ev r woken m in
  m_fsm m' = m_fsm m /\
  m_stat_lock m' = m_stat_lock m /\
  m_isp_proc m' = m_isp_proc m /\
  m_cbs m' = m_cbs m /\
  m_user_data m' = m_user_data m /\
  m_intr_on m' = m_intr_on m /\
  awb_clk_en (m_hw m') = awb_clk_en (m_hw m) /\
  awb_intr_en (m_hw m') = awb_intr_en (m_hw m) /\
  m_evt_que m' = (if fdone_pending pf ev then Some r else m_evt_que m) /\
  awb_en (m_hw m') =
    (if fdone_pending pf ev && bool_decide (m_fsm m = ISP_FSM_START)
     then true else awb_en (m_hw m)) /\
  awb_triggers (m_hw m') =
    (if fdone_pending pf ev && bool_decide (m_fsm m = ISP_FSM_START)
     then S (awb_triggers (m_hw m)) else awb_triggers (m_hw m)).
Proof.
  destruct m as [st p g q [cb] ud io h wk y], r as [wp sr sg sb].
  unfold isr_fire, s_isp_awb_default_isr, fdone_pending. cbn.
  destruct (decide _) as [Hf | Hf]; cbn.
  - apply Z.eqb_neq in Hf. rewrite Hf. cbn.
    destruct cb as [f |]; cbn;
      destruct (decide (st = ISP_FSM_START)) as [-> | Hst]; cbn;
      try rewrite (bool_decide_eq_false_2 _ Hst);
      try rewrite (bool_decide_eq_true_2 (ISP_FSM_START = ISP_FSM_START) eq_refl);
      try destruct (f _ _); try destruct woken;
      cbn; repeat split; reflexivity.
  - apply dec_stable in Hf. apply Z.eqb_eq in Hf. rewrite Hf. cbn.
    repeat split; reflexivity.
Qed.

End HandlerFacts.

(** ** One task preempted by the handler: what interrupts keep *)

Lemma own_steps_app a b : own_steps (a ++ b) = (own_steps a + own_steps b)%nat.
Proof.
  induction a as [| [t | t | ev r w] a IH]; cbn; lia.
Qed.

Section PreemptionFacts.

Variable pf : platform_t.

(** The handler writes neither the state nor the Gate, the callback or
    the arming; it overwrites the Relay and, in state Started, enables
    the engine. *)
Lemma handlers_keeps ss m :
  m_fsm (handlers pf ss m) = m_fsm m /\
  m_stat_lock (handlers pf ss m) = m_stat_lock m /\
  m_isp_proc (handlers pf ss m) = m_isp_proc m /\
  m_cbs (handlers pf ss m) = m_cbs m /\
  m_user_data (handlers pf ss m) = m_user_data m /\
  m_intr_on (handlers pf ss m) = m_intr_on m /\
  awb_clk_en (m_hw (handlers pf ss m)) = awb_clk_en (m_hw m) /\
  awb_intr_en (m_hw (handlers pf ss m)) = awb_intr_en (m_hw m).
Proof.
  revert m. induction ss as [| [t | t | ev r w] ss IH]; intros m; cbn [handlers];
    [tauto | apply IH | apply IH |].
  destruct (IH (isr_fire pf ev r w m)) as (-> & -> & -> & -> & -> & -> & -> & ->).
  destruct (isr_fire_spec pf ev r w m) as (-> & -> & -> & -> & -> & -> & -> & -> & _).
  tauto.
Qed.

Lemma handlers_fsm ss m : m_fsm (handlers pf ss m) = m_fsm m.
Proof. apply handlers_keeps. Qed.
Lemma handlers_stat_lock ss m : m_stat_lock (handlers pf ss m) = m_stat_lock m.
Proof. apply handlers_keeps. Qed.
Lemma handlers_isp_proc ss m : m_isp_proc (handlers pf ss m) = m_isp_proc m.
Proof. apply handlers_keeps. Qed.
Lemma handlers_cbs ss m : m_cbs (handlers pf ss m) = m_cbs m.
Proof. apply handlers_keeps. Qed.
Lemma handlers_user_data ss m : m_user_data (handlers pf ss m) = m_user_data m.
Proof. apply handlers_keeps. Qed.
Lemma handlers_intr_on ss m : m_intr_on (handlers pf ss m) = m_intr_on m.
Proof. apply handlers_keeps. Qed.
Lemma handlers_clk ss m : awb_clk_en (m_hw (handlers pf ss m)) = awb_clk_en (m_hw m).
Proof. apply handlers_keeps. Qed.
Lemma handlers_intr_en ss m : awb_intr_en (m_hw (handlers pf ss m)) = awb_intr_en (m_hw m).
Proof. apply handlers_keeps. Qed.

Lemma handlers_evt_que ss m :
  m_evt_que (handlers pf ss m) = last_completion pf ss (m_evt_que m).
Proof.
  revert m. induction ss as [| [t | t | ev r w] ss IH]; intros m; cbn; auto.
  rewrite IH.
  destruct (isr_fire_spec pf ev r w m) as (_ & _ & _ & _ & _ & _ & _ & _ & -> & _).
  reflexivity.
Qed.

Lemma handlers_awb_en ss m :
  awb_en (m_hw (handlers pf ss m))
  = if completion_in pf ss && bool_decide (m_fsm m = ISP_FSM_START)
    then true else awb_en (m_hw m).
Proof.
  revert m. induction ss as [| [t | t | ev r w] ss IH]; intros m; cbn; auto.
  rewrite IH.
  destruct (isr_fire_spec pf ev r w m) as (-> & _ & _ & _ & _ & _ & _ & _ & _ & -> & _).
  destruct (fdone_pending pf ev), (completion_in pf ss),
    (bool_decide (m_fsm m = ISP_FSM_START)); reflexivity.
Qed.

Lemma last_completion_app a b q :
  last_completion pf (a ++ b) q = last_completion pf b (last_completion pf a q).
Proof.
  revert q. induction a as [| [t | t | ev r w] a IH]; intros q; cbn; auto.
Qed.

Context {A : Type}.

(** A run of one task either consists of interrupts only, or splits into
    a stretch of interrupts, one step of the task (performed, or a wait
    that runs into its deadline) and the rest of the run. *)
Lemma solo_next ss m (p : prog A) m' ts' :
  interleave pf ss (m, [p]) = Some (m', ts') ->
  (own_steps ss = 0%nat /\ m' = handlers pf ss m /\ ts' = [p]) \/
  exists ints s rest p1 m1,
    ss = ints ++ s :: rest /\ own_steps ints = 0%nat /\
    ((s = Run 0 /\ task_step p (handlers pf ints m) = Some (p1, m1)) \/
     (s = Deadline 0 /\ task_deadline p (handlers pf ints m) = Some (p1, m1))) /\
    interleave pf rest (m1, [p1]) = Some (m', ts').
Proof.
  revert m. induction ss as [| s ss IH]; intros m H.
  - left. cbn in H. injection H as <- <-. auto.
  - destruct s as [t | t | ev r w].
    + right. cbn [interleave sched_one] in H.
      destruct t as [| t]; [| discriminate].
      cbn in H. destruct (task_step p m) as [[p1 m1] |] eqn:Hs; [| discriminate].
      cbn in H. exists [], (Run 0), ss, p1, m1. cbn. auto 10.
    + right. cbn [interleave sched_one] in H.
      destruct t as [| t]; [| discriminate].
      cbn in H. destruct (task_deadline p m) as [[p1 m1] |] eqn:Hs; [| discriminate].
      cbn in H. exists [], (Deadline 0), ss, p1, m1. cbn. auto 10.
    + cbn [interleave sched_one] in H.
      destruct (IH _ H) as [(Ho & -> & ->) | (ints & s & rest & p1 & m1 & -> & Ho & Hs & Hr)].
      * left. cbn. auto.
      * right. exists (Interrupt ev r w :: ints), s, rest, p1, m1. cbn. auto 10.
Qed.

End PreemptionFacts.

Section ScheduleFacts.

Variable pf : platform_t.

Lemma completion_with_left_intrs n ints rest :
  own_steps ints = 0%nat ->
  completion_with_left pf n (ints ++ rest)
  = (completion_in pf ints && (own_steps rest =? n)%nat) || completion_with_left pf n rest.
Proof.
  induction ints as [| [t | t | ev r w] ints IH]; cbn; try discriminate; intros H.
  - reflexivity.
  - rewrite IH by assumption. rewrite own_steps_app, H. cbn.
    destruct (fdone_pending pf ev), (completion_in pf ints), (own_steps rest =? n)%nat;
      reflexivity.
Qed.

Lemma completion_with_left_end n ints :
  own_steps ints = 0%nat ->
  completion_with_left pf n ints = completion_in pf ints && (0 =? n)%nat.
Proof.
  intros H. rewrite <- (app_nil_r ints) at 1.
  rewrite completion_with_left_intrs by assumption. cbn. apply orb_false_r.
Qed.

Lemma after_own_0 ss : after_own 0 ss = ss.
Proof. destruct ss; reflexivity. Qed.

Lemma after_own_intrs n ints rest :
  own_steps ints = 0%nat ->
  after_own (S n) (ints ++ rest) = after_own (S n) rest.
Proof.
  induction ints as [| [t | t | ev r w] ints IH]; cbn; try discriminate; auto.
Qed.

Lemma before_own_intrs n ints rest :
  own_steps ints = 0%nat ->
  before_own n (ints ++ rest) = ints ++ before_own n rest.
Proof.
  induction ints as [| [t | t | ev r w] ints IH]; cbn; try discriminate; auto.
  intros H. rewrite IH by assumption. reflexivity.
Qed.

End ScheduleFacts.

(** A schedule of one task is a run of interrupts, then a step of the
    task, and so on: the tactics below take a run apart step by step. *)

Ltac peel H i Ho Hs :=
  let s := fresh "s" in let rest := fresh "rest" in let p1 := fresh "p" in
  let m1 := fresh "M" in let Hts := fresh "Hts" in
  apply solo_next in H as [(_ & _ & Hts) | (i & s & rest & p1 & m1 & -> & Ho & Hs & H)];
  [discriminate Hts |].

(* the next primitive does not wait *)
Ltac peel_run H i Ho :=
  let Hs := fresh "Hs" in
  peel H i Ho Hs;
  destruct Hs as [[-> Hs] | [_ Hs]]; [| discriminate Hs];
  cbn in Hs; injection Hs as <- <-.

(** A take that goes on, served or not, leaves the Gate taken and
    answers what the Gate was; a receive with a block time that goes on
    answers what the Relay held and leaves it empty. *)
Lemma take_steps {A : Type} ticks (k : bool -> prog A) M p1 m1 :
  (task_step (Vis (xSemaphoreTake ticks) k) M = Some (p1, m1) \/
   task_deadline (Vis (xSemaphoreTake ticks) k) M = Some (p1, m1)) ->
  p1 = k (m_stat_lock M) /\ m1 = upd_stat_lock false M.
Proof.
  destruct M as [st p g q cb ud io h wk y].
  cbn. unfold sem_try_take. cbn.
  destruct g; cbn.
  - intros [[= <- <-] | [=]]. eauto.
  - destruct (ticks =? 0); cbn; destruct ((0 <? ticks) && _); cbn;
      intros [H | H]; try discriminate; injection H as <- <-; eauto.
Qed.

Lemma receive_steps {A : Type} ticks (k : option isp_awb_stat_result_t -> prog A) M p1 m1 :
  0 < ticks ->
  (task_step (Vis (xQueueReceive ticks) k) M = Some (p1, m1) \/
   task_deadline (Vis (xQueueReceive ticks) k) M = Some (p1, m1)) ->
  p1 = k (m_evt_que M) /\ m1 = upd_evt_que None M.
Proof.
  intros Hpos.
  destruct M as [st p g q cb ud io h wk y].
  cbn. unfold que_try_receive. cbn.
  destruct q as [r |]; cbn.
  - intros [[= <- <-] | [=]]. eauto.
  - destruct (Z.eqb_spec ticks 0); [lia |].
    destruct ((0 <? ticks) && _); cbn;
      intros [H | H]; try discriminate; injection H as <- <-; eauto.
Qed.



Ltac mach :=
  repeat first
    [ progress rewrite ?handlers_fsm, ?handlers_stat_lock, ?handlers_isp_proc, ?handlers_cbs,
        ?handlers_user_data, ?handlers_intr_on, ?handlers_clk, ?handlers_intr_en
    | progress cbn [m_fsm m_stat_lock m_isp_proc m_cbs m_user_data m_intr_on m_hw m_evt_que
                    upd_fsm upd_stat_lock upd_evt_que upd_cbs upd_user_data upd_intr_on
                    upd_hw upd_woken upd_yields awb_clk_en awb_intr_en awb_en
                    isp_ll_awb_enable isp_ll_awb_clk_enable isp_ll_enable_intr] ].

Ltac mach_in H :=
  repeat first
    [ progress rewrite ?handlers_fsm, ?handlers_stat_lock, ?handlers_isp_proc, ?handlers_cbs,
        ?handlers_user_data, ?handlers_intr_on, ?handlers_clk, ?handlers_intr_en in H
    | progress cbn [m_fsm m_stat_lock m_isp_proc m_cbs m_user_data m_intr_on m_hw m_evt_que
                    upd_fsm upd_stat_lock upd_evt_que upd_cbs upd_user_data upd_intr_on
                    upd_hw upd_woken upd_yields awb_clk_en awb_intr_en awb_en
                    isp_ll_awb_enable isp_ll_awb_clk_enable isp_ll_enable_intr] in H ].

Ltac dec_in H :=
  first [ rewrite decide_True in H by congruence
        | rewrite decide_False in H by congruence ].


Ltac own :=
  repeat first
    [ progress rewrite own_steps_app
    | progress cbn [own_steps Nat.add Nat.eqb]
    | match goal with
      | H : own_steps ?i = 0%nat |- context [own_steps ?i] => rewrite H
      end ].

Ltac sched pf :=
  repeat (rewrite (completion_with_left_intrs pf) by assumption; cbn [completion_with_left]);
  rewrite ?(completion_with_left_end pf) by assumption;
  own;
  rewrite ?andb_false_r, ?andb_true_r, ?orb_false_r, ?orb_false_l.

Ltac peel_end H Ho Hts :=
  let Hs := fresh "Hs" in
  apply solo_next in H as [(Ho & -> & Hts) | (? & ? & ? & ? & ? & _ & _ & [[_ Hs] | [_ Hs]] & _)];
  [| discriminate Hs ..].

Ltac peel_take H i Ho Hsch :=
  let Hs := fresh "Hs" in
  peel H i Ho Hs;
  match type of Hs with
  | (?s = Run 0 /\ task_step (Vis (xSemaphoreTake ?t) ?k) ?M = Some (?p, ?m1)) \/ _ =>
    let Hp := fresh in let Hm := fresh in
    assert (Hsch : s = Run 0 \/ s = Deadline 0) by (destruct Hs as [[-> _] | [-> _]]; auto);
    destruct (take_steps t k M p m1) as (Hp & Hm);
    [destruct Hs as [[_ Hs] | [_ Hs]]; auto | ];
    clear Hs; subst p m1; cbv beta in H
  end.

Ltac peel_receive H i Ho Hsch Hpos :=
  let Hs := fresh "Hs" in
  peel H i Ho Hs;
  match type of Hs with
  | (?s = Run 0 /\ task_step (Vis (xQueueReceive ?t) ?k) ?M = Some (?p, ?m1)) \/ _ =>
    let Hp := fresh in let Hm := fresh in
    assert (Hsch : s = Run 0 \/ s = Deadline 0) by (destruct Hs as [[-> _] | [-> _]]; auto);
    destruct (receive_steps t k M p m1 Hpos) as (Hp & Hm);
    [destruct Hs as [[_ Hs] | [_ Hs]]; auto | ];
    clear Hs; subst p m1; cbv beta in H
  end.

Ltac peel_runs H :=
  repeat (let i := fresh "i" in let Ho := fresh "Ho" in peel_run H i Ho).

Section OneshotPreempted.
Variable pf : platform_t.

(** A one-shot request that returns, whatever interrupts are served
    during it: the machine it leaves, the engine, the number of its steps
    and what it returns. *)
Lemma oneshot_preempted (c : handle) timeout_ms out_res ss m m' rc out :
  m_fsm m = ISP_FSM_ENABLE ->
  (is_Some out_res \/ timeout_ms = 0) ->
  interleave pf ss (m, [esp_isp_awb_controller_get_oneshot_statistics pf (Some c) timeout_ms out_res]) = Some (m', [Ret (rc, out)]) ->
  m_fsm m' = ISP_FSM_ENABLE /\ m_stat_lock m' = true /\
  callbacks_of m' = callbacks_of m /\ arming_of m' = arming_of m /\
  awb_en (m_hw m') = completion_with_left pf 2 ss /\
  if 0 <? oneshot_ticks pf timeout_ms then
    own_steps ss = 9%nat /\
    match last_completion pf (before_own 1 (after_own 4 ss)) None with
    | Some r => rc = ESP_OK /\ out = Some r
    | None => rc = ESP_ERR_TIMEOUT /\ out = out_res
    end
  else own_steps ss = 8%nat /\ rc = ESP_OK /\ out = out_res.
Proof.
  intros Hfsm Hargs.
  unfold esp_isp_awb_controller_get_oneshot_statistics.
  assert (Hchk : bool_decide (is_Some (Some c)) &&
                 (bool_decide (is_Some out_res) || (timeout_ms =? 0)) = true).
  { rewrite bool_decide_eq_true_2 by eauto. cbn.
    destruct Hargs as [H | ->].
    - rewrite bool_decide_eq_true_2 by assumption. reflexivity.
    - rewrite orb_true_r. reflexivity. }
  rewrite Hchk. cbn [negb].
  fold (oneshot_ticks pf timeout_ms).
  intros H.
  peel H i0 Ho0 Hs.
  destruct Hs as [[-> Hs] | [_ Hs]]; [| discriminate Hs].
  cbn in Hs. rewrite handlers_fsm, Hfsm in Hs.
  destruct (decide (ISP_FSM_ENABLE ≠ ISP_FSM_ENABLE)) as [Hn | _]; [congruence |].
  injection Hs as <- <-.
  peel_take H i1 Ho1 Hs1.
  peel_run H i2 Ho2.
  peel_run H i3 Ho3.
  peel_run H i4 Ho4.
  destruct (Z.ltb_spec 0 (oneshot_ticks pf timeout_ms)) as [Hpos | Hpos].
  - unfold mbind, prog_mbind in H; cbn [prog_bind] in H.
    peel_receive H i5 Ho5 Hs5 Hpos.
    rewrite handlers_evt_que in H. cbn [m_evt_que upd_hw] in H.
    rewrite handlers_evt_que in H. cbn [m_evt_que upd_evt_que] in H.
    assert (Hseg : last_completion pf (before_own 1 (after_own 4
               (i0 ++ Run 0 :: i1 ++ s :: i2 ++ Run 0 :: i3 ++ Run 0 :: i4 ++ Run 0
                   :: i5 ++ s0 :: rest0))) None
             = last_completion pf i5 (last_completion pf i4 None)).
    { destruct Hs1 as [-> | ->], Hs5 as [-> | ->];
        repeat (rewrite after_own_intrs by assumption; cbn [after_own]);
        rewrite after_own_0;
        repeat (rewrite before_own_intrs by assumption; cbn [before_own]);
        rewrite !last_completion_app; cbn [last_completion];
        rewrite ?last_completion_app; reflexivity. }
    rewrite Hseg. clear Hseg.
    destruct (last_completion pf i5 (last_completion pf i4 None)) as [item |];
      cbn [prog_bind mret prog_mret] in H;
      peel_run H i6 Ho6; peel_run H i7 Ho7; peel_run H i8 Ho8;
      peel_end H Ho9 Hts; injection Hts as -> ->;
      (split; [mach; reflexivity |]); (split; [mach; reflexivity |]);
      (split; [unfold callbacks_of; mach; reflexivity |]);
      (split; [unfold arming_of; mach; reflexivity |]);
      (split;
       [ rewrite handlers_awb_en; mach; rewrite handlers_awb_en; mach;
         rewrite handlers_awb_en; mach;
         destruct Hs1 as [-> | ->], Hs5 as [-> | ->]; sched pf;
         destruct (completion_in pf i7); reflexivity
       | split; [destruct Hs1 as [-> | ->], Hs5 as [-> | ->]; own; reflexivity | auto] ]).
  - unfold mbind, prog_mbind in H; cbn [prog_bind mret prog_mret] in H.
    peel_run H i6 Ho6; peel_run H i7 Ho7; peel_run H i8 Ho8;
      peel_end H Ho9 Hts; injection Hts as -> ->;
      (split; [mach; reflexivity |]); (split; [mach; reflexivity |]);
      (split; [unfold callbacks_of; mach; reflexivity |]);
      (split; [unfold arming_of; mach; reflexivity |]);
      (split;
       [ rewrite handlers_awb_en; mach; rewrite handlers_awb_en; mach;
         rewrite handlers_awb_en; mach;
         destruct Hs1 as [-> | ->]; sched pf;
         destruct (completion_in pf i7); reflexivity
       | split; [destruct Hs1 as [-> | ->]; own; reflexivity | auto] ]).
Qed.
End OneshotPreempted.

(** ** Properties of the statistics calls *)





Section ApiProperties.

Variable pf : platform_t.

(** C4. On a controller in state Enabled, [start_continuous] with the
    Gate unavailable returns InvalidState and changes nothing: state,
    Gate, engine and trigger count are as before. With the Gate available
    it succeeds, takes the token once, moves to Started and writes the
    engine trigger exactly once. *)
Theorem start_continuous_busy_or_once (c : handle) tr m :
  m_fsm m = ISP_FSM_ENABLE ->
  (m_stat_lock m = false ->
     run pf (esp_isp_awb_controller_start_continuous_statistics (Some c)) tr m
     = Some (ESP_ERR_INVALID_STATE, m, tr)) /\
  (m_stat_lock m = true ->
     exists m',
       run pf (esp_isp_awb_controller_start_continuous_statistics (Some c)) tr m
       = Some (ESP_OK, m', tr) /\
       m' = started_from m /\
       m_fsm m' = ISP_FSM_START /\
       m_stat_lock m' = false /\
       awb_en (m_hw m') = true /\
       awb_triggers (m_hw m') = S (awb_triggers (m_hw m))).
Proof.
  intros Hst. rewrite start_continuous_run.
  destruct (decide (m_fsm m = ISP_FSM_ENABLE)) as [_ | Hn]; [| contradiction].
  split; intros Hg; rewrite Hg; [reflexivity |].
  exists (started_from m). repeat split; reflexivity.
Qed.


(** A one-shot request with a deadline returns, whatever the environment
    does. *)
Lemma oneshot_returns (c : handle) timeout_ms out_res tr m :
  m_fsm m = ISP_FSM_ENABLE ->
  (is_Some out_res \/ timeout_ms = 0) ->
  0 <= timeout_ms ->
  is_Some (run pf (esp_isp_awb_controller_get_oneshot_statistics pf (Some c)
                     timeout_ms out_res) tr m).
Proof.
  intros Hst Hargs Hge. rewrite oneshot_run by assumption.
  assert (Hticks : 0 <= oneshot_ticks pf timeout_ms < portMAX_DELAY).
  { unfold oneshot_ticks, pdMS_TO_TICKS, uint32_wrap, portMAX_DELAY.
    destruct (Z.ltb_spec timeout_ms 0); [lia |].
    pose proof (Z.mod_pos_bound (timeout_ms mod 2 ^ 32 * (configTICK_RATE_HZ pf mod 2 ^ 32))
                  (2 ^ 32) eq_refl) as Hb.
    split; [apply Z.div_pos; lia |].
    apply Z.div_lt_upper_bound; lia. }
  destruct (block_on_returns pf sem_try_take false _ tr m Hticks) as [[[g m1] tr1] ->].
  destruct (0 <? oneshot_ticks pf timeout_ms); [| eauto].
  destruct (block_on_returns pf que_try_receive None _ tr1 (oneshot_arm m1) Hticks)
    as [[[[item |] m3] tr3] ->]; eauto.
Qed.

(** The handler re-arms the engine on every finished window seen in state
    Started, whichever call set that state. *)
Lemma isr_rearms_when_started ev r woken m :
  m_fsm m = ISP_FSM_START ->
  fdone_pending pf ev = true ->
  awb_en (m_hw (isr_fire pf ev r woken m)) = true /\
  awb_triggers (m_hw (isr_fire pf ev r woken m)) = S (awb_triggers (m_hw m)).
Proof.
  intros Hst Hf.
  destruct (isr_fire_spec pf ev r woken m) as (_ & _ & _ & _ & _ & _ & _ & _ & _ & He & Ht).
  rewrite He, Ht, Hf, bool_decide_eq_true_2 by assumption. split; reflexivity.
Qed.

End ApiProperties.

(** C4, at the sample controller. *)
Lemma start_continuous_busy_or_once_witness :
  m_fsm sample_enabled = ISP_FSM_ENABLE /\
  (m_stat_lock sample_enabled = true ->
   exists m',
     run sample_platform
       (esp_isp_awb_controller_start_continuous_statistics (Some 1%positive)) []
       sample_enabled = Some (ESP_OK, m', []) /\
     m' = started_from sample_enabled /\
     m_fsm m' = ISP_FSM_START /\
     m_stat_lock m' = false /\
     awb_en (m_hw m') = true /\
     awb_triggers (m_hw m') = S (awb_triggers (m_hw sample_enabled))).
Proof.
  split; [reflexivity |].
  apply (start_continuous_busy_or_once sample_platform 1%positive [] sample_enabled).
  reflexivity.
Defined.

(** C3, on the code. A one-shot request of twenty milliseconds on the
    enabled sample controller whose wait on the Relay runs into its
    deadline. The request disables the engine; the window finishes just
    then, before the request has written the state, and the handler,
    which still reads Started, triggers the engine again. The request
    returns Timeout with the caller's buffer as it was, state Enabled and
    the Gate available, and the engine enabled. *)
Theorem oneshot_timeout_leaves_engine_enabled :
  solo_view (interleave sample_platform timeout_engine_off
               (sample_enabled, [sample_oneshot_20ms]))
  = Some ([None], ISP_FSM_START, false, false, 1%nat) /\
  solo_view (interleave sample_platform timeout_late_window
               (sample_enabled, [sample_oneshot_20ms]))
  = Some ([None], ISP_FSM_START, false, true, 2%nat) /\
  solo_view (interleave sample_platform timeout_returned
               (sample_enabled, [sample_oneshot_20ms]))
  = Some ([Some (ESP_ERR_TIMEOUT, Some (mk_result 0 0 0 0))],
          ISP_FSM_ENABLE, true, true, 2%nat).
Proof. repeat split; vm_compute; reflexivity. Qed.



(** C2, on the code. One one-shot request on the sample controller during
    which the engine finishes one window: the request returns that
    window's result, and the engine has been triggered twice, once by the
    request and once more by the handler on the completion. *)
Theorem isr_rearms_during_oneshot :
  awb_triggers (m_hw sample_enabled) = 0%nat /\
  option_map (fun '(res, m', tr') => (res, awb_triggers (m_hw m'), tr'))
    (run sample_platform
       (esp_isp_awb_controller_get_oneshot_statistics sample_platform (Some 1%positive) 100
          (Some (mk_result 0 0 0 0)))
       [EvTick; EvIntr (BIT 12) (mk_result 5 10 20 30) true] sample_enabled)
  = Some ((ESP_OK, Some (mk_result 5 10 20 30)), 2%nat, []).
Proof. split; vm_compute; reflexivity. Qed.

(** ** One-shot requests that are refused *)

Section SequentialFacts.

Variable pf : platform_t.

Lemma oneshot_run_rejected (c : handle) timeout_ms out_res tr m res m' tr' :
  (m_fsm m ≠ ISP_FSM_ENABLE \/ ~ (is_Some out_res \/ timeout_ms = 0)) ->
  run pf (esp_isp_awb_controller_get_oneshot_statistics pf (Some c) timeout_ms out_res) tr m
  = Some (res, m', tr') ->
  m' = m.
Proof.
  intros Hrej. unfold esp_isp_awb_controller_get_oneshot_statistics.
  destruct (negb _) eqn:Hchk; cbn; [intros [= <- <- <-]; reflexivity |].
  destruct (decide (m_fsm m ≠ ISP_FSM_ENABLE)) as [Hn | Hn]; cbn.
  - intros [= <- <- <-]; reflexivity.
  - exfalso. destruct Hrej as [Hst | Hargs]; [contradiction |].
    apply Hargs. apply negb_false_iff, andb_true_iff in Hchk as [_ Hor].
    apply orb_true_iff in Hor as [Ho | Ht].
    + left. eapply bool_decide_eq_true_1, Ho.
    + right. apply Z.eqb_eq, Ht.
Qed.

End SequentialFacts.

(** ** A cycle after [disable] *)

Section RoundTrips.

Variable pf : platform_t.

(** Observable equality is kept by the environment and by the waits. *)
Lemma env_step_observe e a b :
  observe a = observe b -> observe (env_step pf e a) = observe (env_step pf e b).
Proof.
  destruct e as [| ev r woken]; cbn; [auto |]. unfold observe. intros Hab.
  destruct (isr_fire_spec pf ev r woken a)
    as (-> & -> & _ & _ & _ & -> & -> & -> & -> & -> & _).
  destruct (isr_fire_spec pf ev r woken b)
    as (-> & -> & _ & _ & _ & -> & -> & -> & -> & -> & _).
  injection Hab as -> -> -> -> -> -> ->. reflexivity.
Qed.

Lemma block_on_receive_observe ticks tr a b :
  observe a = observe b ->
  wait_view (block_on pf que_try_receive None ticks tr a)
  = wait_view (block_on pf que_try_receive None ticks tr b).
Proof.
  revert ticks a b. induction tr as [| e tr IH]; intros ticks a b Hab.
  - cbn [block_on]. unfold que_try_receive.
    assert (Hq : m_evt_que a = m_evt_que b) by (unfold observe in Hab; congruence).
    rewrite <- Hq. destruct (m_evt_que a); cbn.
    + f_equal. f_equal. f_equal. unfold observe in *. cbn. congruence.
    + destruct (ticks =? 0); cbn; [congruence |].
      destruct (ticks =? portMAX_DELAY); cbn; congruence.
  - cbn [block_on]. unfold que_try_receive.
    assert (Hq : m_evt_que a = m_evt_que b) by (unfold observe in Hab; congruence).
    rewrite <- Hq. destruct (m_evt_que a); cbn.
    + f_equal. f_equal. f_equal. unfold observe in *. cbn. congruence.
    + destruct (ticks =? 0); cbn; [congruence |].
      destruct e as [| ev r woken].
      * apply IH. exact Hab.
      * apply IH. apply (env_step_observe (EvIntr ev r woken)). exact Hab.
Qed.

Lemma cycle_from_init (c : handle) timeout_ms out_res tr m :
  m_fsm m = ISP_FSM_INIT ->
  is_Some (m_isp_proc m) ->
  (is_Some out_res \/ timeout_ms = 0) ->
  wait_view (run pf (enable_oneshot_cycle pf c timeout_ms out_res) tr m)
  = if 0 <? oneshot_ticks pf timeout_ms then
      match block_on pf que_try_receive None (oneshot_ticks pf timeout_ms) tr
              (oneshot_arm (upd_stat_lock false (enabled_from m))) with
      | None => None
      | Some (Some item, m3, tr3) =>
          Some ((ESP_OK, (ESP_OK, Some item)), observe (oneshot_finish m3), tr3)
      | Some (None, m3, tr3) =>
          Some ((ESP_OK, (ESP_ERR_TIMEOUT, out_res)), observe (oneshot_finish m3), tr3)
      end
    else Some ((ESP_OK, (ESP_OK, out_res)),
               observe (oneshot_finish (oneshot_arm (upd_stat_lock false (enabled_from m)))),
               tr).
Proof.
  intros Hst [p Hp] Hargs. unfold enable_oneshot_cycle.
  rewrite run_bind, enable_run.
  destruct (decide (m_isp_proc m = None)) as [Hn | _]; [congruence |].
  destruct (decide (m_fsm m = ISP_FSM_INIT)) as [_ | Hn]; [| contradiction].
  rewrite run_bind, oneshot_run by (assumption || reflexivity).
  rewrite (block_on_served pf sem_try_take false _ tr (enabled_from m) true
             (upd_stat_lock false (enabled_from m))) by reflexivity.
  destruct (0 <? oneshot_ticks pf timeout_ms); [| reflexivity].
  destruct (block_on pf que_try_receive _ _ _ _) as [[[[item |] m3] tr3] |]; reflexivity.
Qed.

End RoundTrips.

Section DisableEnable.

Variable pf : platform_t.

Lemma oneshot_finish_observe a b :
  observe a = observe b -> observe (oneshot_finish a) = observe (oneshot_finish b).
Proof. unfold observe. cbn. intros [= ? ? ? ? ? ? ?]. congruence. Qed.

(** C9, as the code has it. [disable] on an Enabled controller succeeds
    and leaves state Init with the Gate unavailable, whatever the Gate was;
    from there an [enable] followed by a one-shot request returns the same
    codes, delivers the same result, consumes the same environment and
    ends in the same observable state as on a controller just created. *)
Theorem disable_then_cycle_as_fresh (c : handle) m p h0 timeout_ms out_res tr0 tr :
  m_fsm m = ISP_FSM_ENABLE ->
  is_Some (m_isp_proc m) ->
  (is_Some out_res \/ timeout_ms = 0) ->
  exists m1,
    run pf (esp_isp_awb_controller_disable (Some c)) tr0 m = Some (ESP_OK, m1, tr0) /\
    m_fsm m1 = ISP_FSM_INIT /\
    m_stat_lock m1 = false /\
    wait_view (run pf (enable_oneshot_cycle pf c timeout_ms out_res) tr m1)
    = wait_view (run pf (enable_oneshot_cycle pf c timeout_ms out_res) tr
                   (fresh_machine p h0)).
Proof.
  intros Hst Hp Hargs. exists (disabled_from m).
  rewrite disable_run.
  destruct Hp as [p' Hp'].
  destruct (decide (m_isp_proc m = None)) as [Hn | _]; [congruence |].
  destruct (decide (m_fsm m = ISP_FSM_ENABLE)) as [_ | Hn]; [| contradiction].
  repeat split.
  rewrite !cycle_from_init; try assumption; try reflexivity;
    try (cbn; eauto; fail).
  assert (Harm : observe (oneshot_arm (upd_stat_lock false (enabled_from (disabled_from m))))
                 = observe (oneshot_arm (upd_stat_lock false
                                           (enabled_from (fresh_machine p h0)))))
    by reflexivity.
  destruct (0 <? oneshot_ticks pf timeout_ms).
  - pose proof (block_on_receive_observe pf (oneshot_ticks pf timeout_ms) tr _ _ Harm) as Hw.
    destruct (block_on pf que_try_receive None _ tr
                (oneshot_arm (upd_stat_lock false (enabled_from (disabled_from m)))))
      as [[[x a] tra] |];
      destruct (block_on pf que_try_receive None _ tr
                  (oneshot_arm (upd_stat_lock false (enabled_from (fresh_machine p h0)))))
      as [[[y b] trb] |]; unfold wait_view, option_map in Hw;
      try discriminate; [| reflexivity].
    assert (Hx : x = y) by congruence.
    assert (Hab : observe a = observe b) by congruence.
    assert (Htr : tra = trb) by congruence.
    subst x tra.
    rewrite (oneshot_finish_observe a b Hab). destruct y; reflexivity.
  - rewrite (oneshot_finish_observe _ _ Harm). reflexivity.
Qed.

End DisableEnable.

(** C8, on the code. [start_continuous] then [stop_continuous] on the
    enabled sample controller. [stop] disables the engine; a window
    finishes just then, before [stop] has written the state, and the
    handler, which still reads Started, triggers the engine again. Both
    calls return ESP_OK and the controller is Enabled with the Gate
    available and the engine enabled. *)
Theorem stop_interrupted_leaves_engine_enabled :
  solo_view (interleave sample_platform stop_engine_off
               (sample_enabled, [start_stop_cycle 1%positive]))
  = Some ([None], ISP_FSM_START, false, false, 1%nat) /\
  solo_view (interleave sample_platform stop_late_window
               (sample_enabled, [start_stop_cycle 1%positive]))
  = Some ([None], ISP_FSM_START, false, true, 2%nat) /\
  solo_view (interleave sample_platform stop_returned
               (sample_enabled, [start_stop_cycle 1%positive]))
  = Some ([Some (ESP_OK, ESP_OK)], ISP_FSM_ENABLE, true, true, 2%nat).
Proof. repeat split; vm_compute; reflexivity. Qed.

(** C9, at the sample controller. *)
Lemma disable_then_cycle_as_fresh_witness :
  exists m1,
    run sample_platform (esp_isp_awb_controller_disable (Some 1%positive)) []
      sample_enabled = Some (ESP_OK, m1, []) /\
    m_fsm m1 = ISP_FSM_INIT /\
    m_stat_lock m1 = false /\
    wait_view (run sample_platform
                 (enable_oneshot_cycle sample_platform 1%positive 100
                    (Some (mk_result 0 0 0 0)))
                 [EvTick; EvIntr (BIT 12) (mk_result 5 10 20 30) true] m1)
    = wait_view (run sample_platform
                   (enable_oneshot_cycle sample_platform 1%positive 100
                      (Some (mk_result 0 0 0 0)))
                   [EvTick; EvIntr (BIT 12) (mk_result 5 10 20 30) true]
                   (fresh_machine 1%positive sample_hw)).
Proof.
  apply (disable_then_cycle_as_fresh sample_platform 1%positive sample_enabled
           1%positive sample_hw 100 (Some (mk_result 0 0 0 0)) []
           [EvTick; EvIntr (BIT 12) (mk_result 5 10 20 30) true]).
  - reflexivity.
  - eexists. reflexivity.
  - left. eexists. reflexivity.
Defined.

(** C9 as stated fails: after [disable] on the enabled sample controller
    the Gate is not available. *)
Lemma disable_leaves_gate_unavailable :
  ~ (forall res m' tr',
       run sample_platform (esp_isp_awb_controller_disable (Some 1%positive)) []
         sample_enabled = Some (res, m', tr') ->
       m_stat_lock m' = true).
Proof.
  intros H.
  specialize (H ESP_OK (disabled_from sample_enabled) [] eq_refl). discriminate.
Qed.

(** ** Two one-shot requests on one controller *)

(** C1, on the code. Two tasks call [get_oneshot_statistics] on the
    enabled sample controller. Once both have passed the state check and
    task 0 has taken the Gate, task 1 is suspended on the Gate. When its
    wait runs out it goes on all the same: it sets Started and triggers
    the engine, so that two requests wait on the Relay at once with two
    triggers issued and one token taken. Task 1, which never had the Gate,
    then receives the window, stops the engine, sets Enabled and gives the
    Gate, while task 0 is still waiting on the Relay. *)
Theorem two_oneshot_requests_in_flight :
  race_view at_gate (interleave sample_platform race_checks (sample_enabled, two_requests))
  = Some (ISP_FSM_ENABLE, false, false, 0%nat, [false; true]) /\
  interleave sample_platform (race_checks ++ [Run 1%nat]) (sample_enabled, two_requests)
  = None /\
  race_view at_relay (interleave sample_platform race_armed (sample_enabled, two_requests))
  = Some (ISP_FSM_START, false, true, 2%nat, [true; true]) /\
  race_view at_relay (interleave sample_platform race_served (sample_enabled, two_requests))
  = Some (ISP_FSM_ENABLE, true, false, 3%nat, [true; false]) /\
  option_map (fun '(_, ts) => map returned ts)
    (interleave sample_platform race_served (sample_enabled, two_requests))
  = Some [None; Some (ESP_OK, Some (mk_result 5 10 20 30))].
Proof. repeat split; vm_compute; reflexivity. Qed.

(** ** Properties of the claim registry and of construction *)

(** *** Comparisons of IEEE 754 values *)

Lemma SFcompare_antisym a b : SFcompare b a = option_map CompOpp (SFcompare a b).
Proof.
  destruct a as [sa | sa | | sa ma ea], b as [sb | sb | | sb mb eb]; cbn;
    try reflexivity; try (destruct sa; reflexivity); try (destruct sb; reflexivity);
    try (destruct sa, sb; reflexivity).
  pose proof (Pos.compare_cont_antisym ma mb Eq) as Hm. cbn in Hm.
  destruct sa, sb; cbn; try reflexivity;
    rewrite (Z.compare_antisym ea eb); destruct (ea ?= eb); cbn; try reflexivity;
    rewrite <- Hm; destruct (Pos.compare_cont Eq ma mb); reflexivity.
Qed.

Lemma float_lt_asym a b : float_lt a b = true -> float_lt b a = false.
Proof.
  unfold float_lt, SFltb. rewrite (SFcompare_antisym a b).
  destruct (SFcompare a b) as [[| |] |]; cbn; congruence.
Qed.

Lemma float_lt_not_ge a b : float_lt a b = true -> float_ge a b = false.
Proof.
  unfold float_lt, float_ge, SFltb, SFleb. rewrite (SFcompare_antisym a b).
  destruct (SFcompare a b) as [[| |] |]; cbn; congruence.
Qed.

Section ConstructionFacts.

Variable pf : platform_t.

Lemma rollback_store (cfg : esp_isp_awb_config_t) (p c q s i : handle) w :
  (exists P, procs w !! p = Some P /\ awb_ctlr P = None) ->
  ctlrs w !! c = None -> queues w !! q = None ->
  sems w !! s = None -> intrs w !! i = None ->
  s_isp_awb_free_controller (Some c)
    (s_isp_declaim_awb_controller (Some c) (new_awb_store pf cfg p c q s i w))
  = new_awb_rolled_back cfg p w.
Proof.
  intros (P & HP & Hslot) Hc Hq Hs Hi.
  unfold s_isp_declaim_awb_controller, new_awb_store. cbn.
  rewrite lookup_total_insert_eq. cbn.
  unfold s_isp_awb_free_controller. cbn.
  rewrite lookup_total_insert_eq. cbn.
  unfold set_ctlrs, set_sems, set_queues, set_intrs, set_procs, new_awb_rolled_back. cbn.
  rewrite !delete_insert_id by assumption.
  rewrite !alter_alter_eq. unfold set_procs. f_equal.
  apply alter_ext. intros x Hx. rewrite HP in Hx. injection Hx as <-.
  destruct P as [slot h]. cbn in *. subst slot. reflexivity.
Qed.

Lemma built_store (cfg : esp_isp_awb_config_t) (p c q s i : handle) w :
  set_procs (alter (with_hw (awb_configure_hw cfg)) p)
    (set_intrs (insert i (mk_intr c (awb_intr_alloc_flags pf cfg) false))
       (set_ctlrs (alter (with_intr_handle (Some i)) c)
          (set_procs (alter (with_awb_ctlr (Some c)) p)
             (set_ctlrs (alter (with_isp_proc (Some p)) c)
                (set_ctlrs (alter (with_fsm ISP_FSM_INIT) c)
                   (set_sems (insert s false)
                      (set_ctlrs (alter (with_stat_lock (Some s)) c)
                         (set_queues (insert q None)
                            (set_ctlrs (alter (with_evt_que (Some q)) c)
                               (set_ctlrs (insert c calloc_ctlr) w))))))))))
  = new_awb_store pf cfg p c q s i w.
Proof.
  apply store_eq;
    lazy beta iota delta [new_awb_store set_procs set_intrs set_ctlrs set_sems set_queues
                          procs ctlrs queues sems intrs];
    rewrite ?alter_insert_eq; reflexivity.
Qed.

Lemma new_awb_controller_run (E : alloc_env) cfg p w c q s i :
  alloc_ok pf E cfg p w c q s i ->
  esp_isp_new_awb_controller pf E (Some p) (Some cfg) true w
  = if cfg_ranges_ok pf cfg
    then (ESP_OK, Some c, new_awb_store pf cfg p c q s i w)
    else (ESP_ERR_INVALID_ARG, None, new_awb_rolled_back cfg p w).
Proof.
  intros (HP & Hc & Hcf & Hq & Hqf & Hs & Hsf & Hi & Hif).
  pose proof (rollback_store cfg p c q s i w HP Hcf Hqf Hsf Hif) as Hroll.
  destruct HP as (P & HP & Hslot).
  unfold esp_isp_new_awb_controller. rewrite Hc, Hq, Hs.
  unfold s_isp_claim_awb_controller. cbn.
  rewrite (lookup_total_correct _ _ _ HP), Hslot, Hi. cbn.
  rewrite !built_store.
  destruct (decide (ESP_OK = ESP_OK)) as [_ | Hn]; [| contradiction].
  unfold new_awb_err2, new_awb_err1, cfg_ranges_ok. rewrite Hroll.
  repeat match goal with
         | |- context [negb ?b] => destruct b; cbn [negb andb]; [| reflexivity]
         end.
  reflexivity.
Qed.

End ConstructionFacts.


Section Registry.

Variable pf : platform_t.

Lemma alloc_ok_after_rollback E cfg0 cfg p w c q s i :
  alloc_ok pf E cfg p w c q s i ->
  alloc_ok pf E cfg p (new_awb_rolled_back cfg0 p w) c q s i.
Proof.
  intros ((P & HP & Hslot) & Hrest). split; [| exact Hrest].
  exists (with_hw (awb_configure_hw cfg0) P). split; [| exact Hslot].
  cbn. rewrite lookup_alter_eq, HP. reflexivity.
Qed.

(** C6. When the allocators serve the constructor and the red/green
    range has min above max, or min below zero, the constructor fails
    with InvalidArgument and stores no handle; afterwards the processor's
    slot is empty and the controller memory, the queue, the semaphore and
    the interrupt entry are released (the tables are what they were), and
    a constructor call on the same processor with an accepted
    configuration, served the same way, succeeds. *)
Theorem new_awb_bad_rg_range_rolls_back E cfg p w c q s i :
  alloc_ok pf E cfg p w c q s i ->
  (float_lt (f_max (red_green_ratio (white_patch cfg)))
            (f_min (red_green_ratio (white_patch cfg))) = true \/
   float_lt (f_min (red_green_ratio (white_patch cfg))) float_zero = true) ->
  exists w',
    esp_isp_new_awb_controller pf E (Some p) (Some cfg) true w
    = (ESP_ERR_INVALID_ARG, None, w') /\
    awb_ctlr (procs w' !!! p) = None /\
    ctlrs w' = ctlrs w /\ queues w' = queues w /\
    sems w' = sems w /\ intrs w' = intrs w /\
    forall E2 cfg2 c2 q2 s2 i2,
      alloc_ok pf E2 cfg2 p w c2 q2 s2 i2 ->
      cfg_ranges_ok pf cfg2 = true ->
      esp_isp_new_awb_controller pf E2 (Some p) (Some cfg2) true w'
      = (ESP_OK, Some c2, new_awb_store pf cfg2 p c2 q2 s2 i2 w').
Proof.
  intros Hok Hbad. exists (new_awb_rolled_back cfg p w).
  rewrite (new_awb_controller_run pf E cfg p w c q s i Hok).
  assert (Hrg : cfg_ranges_ok pf cfg = false).
  { unfold cfg_ranges_ok. destruct Hbad as [Hlt | Hneg].
    - rewrite (float_lt_asym _ _ Hlt).
      destruct (isp_hal_awb_set_window_range _ _), (isp_hal_awb_set_luminance_range _ _ _);
        reflexivity.
    - rewrite (float_lt_not_ge _ _ Hneg).
      destruct (isp_hal_awb_set_window_range _ _), (isp_hal_awb_set_luminance_range _ _ _),
        (float_lt (f_min (red_green_ratio (white_patch cfg)))
                  (f_max (red_green_ratio (white_patch cfg)))); reflexivity. }
  rewrite Hrg. split; [reflexivity |].
  destruct Hok as ((P & HP & Hslot) & _).
  split.
  { unfold new_awb_rolled_back, set_procs. cbn [procs].
    rewrite lookup_total_alter_eq, HP. exact Hslot. }
  repeat (split; [reflexivity |]).
  intros E2 cfg2 c2 q2 s2 i2 Hok2 Hr2.
  rewrite (new_awb_controller_run pf E2 cfg2 p _ c2 q2 s2 i2
             (alloc_ok_after_rollback E2 cfg cfg2 p w c2 q2 s2 i2 Hok2)).
  rewrite Hr2. reflexivity.
Qed.



(** C10. A configuration whose interrupt priority is not in 1..7 is not
    refused for it: the flag word handed to the interrupt allocator is
    the driver's flags with the default low/medium levels, the outcome of
    the constructor is the same for every such priority, and when the
    allocators serve the call and the ranges are accepted the constructor
    succeeds. *)
Theorem out_of_range_priority_defaults cfg :
  ~ (0 < intr_priority cfg <= 7) ->
  awb_intr_alloc_flags pf cfg = Z.lor (ISP_INTR_ALLOC_FLAGS pf) (ESP_INTR_FLAG_LOWMED pf) /\
  (forall prio E proc ret_hdl w,
     ~ (0 < prio <= 7) ->
     esp_isp_new_awb_controller pf E proc
       (Some (mk_config (sample_point cfg) (window cfg) (white_patch cfg) prio)) ret_hdl w
     = esp_isp_new_awb_controller pf E proc (Some cfg) ret_hdl w) /\
  (forall E p w c q s i,
     alloc_ok pf E cfg p w c q s i ->
     cfg_ranges_ok pf cfg = true ->
     esp_isp_new_awb_controller pf E (Some p) (Some cfg) true w
     = (ESP_OK, Some c, new_awb_store pf cfg p c q s i w)).
Proof.
  intros Hout.
  assert (Hflags : forall cfg', ~ (0 < intr_priority cfg' <= 7) ->
            awb_intr_alloc_flags pf cfg'
            = Z.lor (ISP_INTR_ALLOC_FLAGS pf) (ESP_INTR_FLAG_LOWMED pf)).
  { intros cfg' H'. unfold awb_intr_alloc_flags.
    destruct (Z.ltb_spec 0 (intr_priority cfg')), (Z.leb_spec (intr_priority cfg') 7);
      cbn; try reflexivity. lia. }
  split; [apply Hflags, Hout |]. split.
  - intros prio E proc ret_hdl w Hprio.
    unfold esp_isp_new_awb_controller.
    rewrite (Hflags cfg Hout).
    rewrite (Hflags (mk_config (sample_point cfg) (window cfg) (white_patch cfg) prio))
      by exact Hprio.
    reflexivity.
  - intros E p w c q s i Hok Hr.
    rewrite (new_awb_controller_run pf E cfg p w c q s i Hok), Hr. reflexivity.
Qed.

End Registry.

Lemma sample_alloc_ok cfg :
  alloc_ok sample_platform sample_env cfg 1%positive sample_store
    10%positive 11%positive 12%positive 13%positive.
Proof.
  split; [exists (mk_proc None hw_reset); split; reflexivity |].
  repeat split; reflexivity.
Defined.

(** C6, at the sample store: the failed call is followed by a successful
    one that is granted the very same addresses. *)
Lemma new_awb_bad_rg_range_rolls_back_witness :
  exists w',
    esp_isp_new_awb_controller sample_platform sample_env (Some 1%positive)
      (Some sample_cfg_bad_rg) true sample_store
    = (ESP_ERR_INVALID_ARG, None, w') /\
    awb_ctlr (procs w' !!! 1%positive) = None /\
    ctlrs w' = ctlrs sample_store /\ queues w' = queues sample_store /\
    sems w' = sems sample_store /\ intrs w' = intrs sample_store /\
    esp_isp_new_awb_controller sample_platform sample_env (Some 1%positive)
      (Some sample_cfg) true w'
    = (ESP_OK, Some 10%positive,
       new_awb_store sample_platform sample_cfg 1%positive 10%positive 11%positive
         12%positive 13%positive w').
Proof.
  destruct (new_awb_bad_rg_range_rolls_back sample_platform sample_env sample_cfg_bad_rg
              1%positive sample_store 10%positive 11%positive 12%positive 13%positive
              (sample_alloc_ok sample_cfg_bad_rg) (or_introl eq_refl))
    as (w' & Hret & Hslot & Hc & Hq & Hs & Hi & Hnext).
  exists w'. repeat (split; [assumption |]).
  apply (Hnext sample_env sample_cfg 10%positive 11%positive 12%positive 13%positive
           (sample_alloc_ok sample_cfg) eq_refl).
Defined.



(** C10, at the sample configuration, whose priority is 0. *)
Lemma out_of_range_priority_defaults_witness :
  awb_intr_alloc_flags sample_platform sample_cfg = Z.lor 2304 14 /\
  esp_isp_new_awb_controller sample_platform sample_env (Some 1%positive)
    (Some sample_cfg) true sample_store
  = (ESP_OK, Some 10%positive,
     new_awb_store sample_platform sample_cfg 1%positive 10%positive 11%positive
       12%positive 13%positive sample_store).
Proof.
  destruct (out_of_range_priority_defaults sample_platform sample_cfg) as (Hf & _ & Hok).
  - cbn. lia.
  - split; [exact Hf |].
    apply (Hok sample_env 1%positive sample_store 10%positive 11%positive 12%positive
             13%positive (sample_alloc_ok sample_cfg) eq_refl).
Defined.

(** What a successful construction leaves, seen through the new handle:
    a controller in state Init whose Gate holds no token and whose Relay
    is empty, attached to a configured, idle engine. *)
Lemma focus_new_awb_store (pf : platform_t) E cfg p w c q s i P :
  alloc_ok pf E cfg p w c q s i ->
  procs w !! p = Some P ->
  focus (new_awb_store pf cfg p c q s i w) c
  = fresh_machine p (awb_configure_hw cfg (hal_hw P)) /\
  awb_en (awb_configure_hw cfg (hal_hw P)) = false.
Proof.
  intros _ HP. split; [| reflexivity].
  unfold focus, new_awb_store, fresh_machine.
  cbn [ctlrs sems queues intrs procs].
  rewrite lookup_total_insert_eq.
  cbn [fsm isp_proc stat_lock evt_que cbs user_data intr_handle from_option].
  rewrite !lookup_insert_eq. cbn [default from_option intr_enabled].
  rewrite alter_alter_eq, lookup_total_alter_eq, HP. reflexivity.
Qed.

(** * Further properties of the driver *)

(** ** Construction: failures before the range checks *)

Ltac flatten_store :=
  apply store_eq;
  lazy beta iota delta [set_procs set_intrs set_ctlrs set_sems set_queues
                        procs ctlrs queues sems intrs];
  rewrite ?alter_insert_eq; reflexivity.

(** Freeing a controller whose struct sits at a fresh address [c]. *)
Lemma free_controller_flat P C Q S I c obj :
  C !! c = None ->
  s_isp_awb_free_controller (Some c) (mk_store P (<[c := obj]> C) Q S I)
  = mk_store P C
      (from_option (fun q => delete q Q) Q (evt_que obj))
      (from_option (fun s => delete s S) S (stat_lock obj))
      (from_option (fun i => delete i I) I (intr_handle obj)).
Proof.
  intros Hc. unfold s_isp_awb_free_controller. cbn [ctlrs].
  rewrite lookup_total_insert_eq.
  destruct obj as [st [i |] pr [q |] [s |] cb ud]; cbn;
    unfold set_ctlrs; cbn; rewrite delete_insert_id by assumption; reflexivity.
Qed.

Section ConstructionFailures.

Variable pf : platform_t.

Lemma new_awb_no_mem_run E cfg p w :
  (heap_caps_calloc E = None \/
   exists c, heap_caps_calloc E = Some c /\ ctlrs w !! c = None /\
     (xQueueCreateWithCaps E = None \/
      exists q, xQueueCreateWithCaps E = Some q /\ queues w !! q = None /\
                xSemaphoreCreateBinaryWithCaps E = None)) ->
  esp_isp_new_awb_controller pf E (Some p) (Some cfg) true w
  = (ESP_ERR_NO_MEM, None, w).
Proof.
  intros [Hc | (c & Hc & Hcf & [Hq | (q & Hq & Hqf & Hs)])];
    unfold esp_isp_new_awb_controller; rewrite Hc; [reflexivity | |]; rewrite Hq.
  - unfold new_awb_err1.
    replace (set_ctlrs (insert c calloc_ctlr) w)
      with (mk_store (procs w) (<[c := calloc_ctlr]> (ctlrs w)) (queues w) (sems w) (intrs w))
      by reflexivity.
    rewrite free_controller_flat by assumption. destruct w; reflexivity.
  - rewrite Hs. unfold new_awb_err1.
    replace (set_queues (insert q None)
               (set_ctlrs (alter (with_evt_que (Some q)) c)
                  (set_ctlrs (insert c calloc_ctlr) w)))
      with (mk_store (procs w) (<[c := with_evt_que (Some q) calloc_ctlr]> (ctlrs w))
              (<[q := None]> (queues w)) (sems w) (intrs w))
      by (symmetry; flatten_store).
    rewrite free_controller_flat by assumption. cbn.
    rewrite delete_insert_id by assumption. destruct w; reflexivity.
Qed.

(** The store just before the claim. *)
Lemma store_before_claim p c q s w :
  set_ctlrs (alter (with_isp_proc (Some p)) c)
    (set_ctlrs (alter (with_fsm ISP_FSM_INIT) c)
       (set_sems (insert s false)
          (set_ctlrs (alter (with_stat_lock (Some s)) c)
             (set_queues (insert q None)
                (set_ctlrs (alter (with_evt_que (Some q)) c)
                   (set_ctlrs (insert c calloc_ctlr) w))))))
  = mk_store (procs w)
      (<[c := mk_ctlr ISP_FSM_INIT None (Some p) (Some q) (Some s) (mk_cbs None) 0]> (ctlrs w))
      (<[q := None]> (queues w)) (<[s := false]> (sems w)) (intrs w).
Proof. flatten_store. Qed.

Lemma new_awb_claimed_run E cfg p w P c0 c q s :
  procs w !! p = Some P ->
  awb_ctlr P = Some c0 ->
  heap_caps_calloc E = Some c -> ctlrs w !! c = None ->
  xQueueCreateWithCaps E = Some q -> queues w !! q = None ->
  xSemaphoreCreateBinaryWithCaps E = Some s -> sems w !! s = None ->
  esp_isp_new_awb_controller pf E (Some p) (Some cfg) true w
  = (ESP_ERR_NOT_FOUND, None, w).
Proof.
  intros HP Hslot Hc Hcf Hq Hqf Hs Hsf.
  unfold esp_isp_new_awb_controller. rewrite Hc, Hq, Hs, store_before_claim.
  unfold s_isp_claim_awb_controller. cbn [procs].
  rewrite (lookup_total_correct _ _ _ HP), Hslot.
  unfold new_awb_err1. rewrite free_controller_flat by assumption. cbn.
  rewrite !delete_insert_id by assumption. destruct w; reflexivity.
Qed.

Lemma new_awb_intr_refused_run E cfg p w P c q s rc :
  procs w !! p = Some P ->
  awb_ctlr P = None ->
  heap_caps_calloc E = Some c -> ctlrs w !! c = None ->
  xQueueCreateWithCaps E = Some q -> queues w !! q = None ->
  xSemaphoreCreateBinaryWithCaps E = Some s -> sems w !! s = None ->
  esp_intr_alloc_intrstatus E (awb_intr_alloc_flags pf cfg) = (rc, None) ->
  rc ≠ ESP_OK ->
  esp_isp_new_awb_controller pf E (Some p) (Some cfg) true w
  = (rc, None, w).
Proof.
  intros HP Hslot Hc Hcf Hq Hqf Hs Hsf Hi Hrc.
  unfold esp_isp_new_awb_controller. rewrite Hc, Hq, Hs, store_before_claim.
  unfold s_isp_claim_awb_controller. cbn [procs].
  rewrite (lookup_total_correct _ _ _ HP), Hslot, Hi.
  destruct (decide (rc = ESP_OK)) as [Heq | _]; [contradiction |].
  unfold new_awb_err2, new_awb_err1, s_isp_declaim_awb_controller, set_procs.
  cbn [ctlrs procs queues sems intrs].
  rewrite lookup_total_insert_eq. cbn [isp_proc].
  rewrite free_controller_flat by assumption. cbn.
  rewrite !delete_insert_id by assumption.
  rewrite alter_alter_eq, alter_id; [destruct w; reflexivity |].
  intros x Hx. rewrite HP in Hx. injection Hx as <-.
  destruct P as [slot h]. cbn in *. subst slot. reflexivity.
Qed.

(** X1. When memory for the struct, the queue or the semaphore cannot be
    had, the constructor returns NoMem and the store is exactly what it
    was: what had been allocated before the failure is released and the
    processor is not touched. *)
Theorem new_awb_out_of_memory E cfg p w :
  (heap_caps_calloc E = None \/
   exists c, heap_caps_calloc E = Some c /\ ctlrs w !! c = None /\
     (xQueueCreateWithCaps E = None \/
      exists q, xQueueCreateWithCaps E = Some q /\ queues w !! q = None /\
                xSemaphoreCreateBinaryWithCaps E = None)) ->
  esp_isp_new_awb_controller pf E (Some p) (Some cfg) true w
  = (ESP_ERR_NO_MEM, None, w).
Proof. apply new_awb_no_mem_run. Qed.

(** X2. On a processor whose slot is taken the constructor fails with
    NotFound; the struct, the queue and the semaphore it had allocated
    are released, the slot keeps its occupant and no register is
    written: the store is exactly what it was. *)
Theorem new_awb_on_claimed_processor E cfg p w P c0 c q s :
  procs w !! p = Some P ->
  awb_ctlr P = Some c0 ->
  heap_caps_calloc E = Some c -> ctlrs w !! c = None ->
  xQueueCreateWithCaps E = Some q -> queues w !! q = None ->
  xSemaphoreCreateBinaryWithCaps E = Some s -> sems w !! s = None ->
  esp_isp_new_awb_controller pf E (Some p) (Some cfg) true w
  = (ESP_ERR_NOT_FOUND, None, w).
Proof. apply new_awb_claimed_run. Qed.

(** X3. When the interrupt allocator refuses, the constructor returns
    the allocator's error code; the slot it had claimed is empty again,
    everything it had allocated is released and no register has been
    written: the store is exactly what it was. *)
Theorem new_awb_intr_alloc_failure E cfg p w P c q s rc :
  procs w !! p = Some P ->
  awb_ctlr P = None ->
  heap_caps_calloc E = Some c -> ctlrs w !! c = None ->
  xQueueCreateWithCaps E = Some q -> queues w !! q = None ->
  xSemaphoreCreateBinaryWithCaps E = Some s -> sems w !! s = None ->
  esp_intr_alloc_intrstatus E (awb_intr_alloc_flags pf cfg) = (rc, None) ->
  rc ≠ ESP_OK ->
  esp_isp_new_awb_controller pf E (Some p) (Some cfg) true w
  = (rc, None, w).
Proof. apply new_awb_intr_refused_run. Qed.

End ConstructionFailures.

(** ** Construction: ranges, outcome, destruction *)

Lemma float_lt_irrefl a : float_lt a a = false.
Proof.
  unfold float_lt, SFltb. pose proof (SFcompare_antisym a a) as H.
  destruct (SFcompare a a) as [[| |] |]; cbn in H; congruence.
Qed.

Lemma float_lt_nan_l a : float_lt S754_nan a = false.
Proof. reflexivity. Qed.

Lemma float_lt_nan_r a : float_lt a S754_nan = false.
Proof. destruct a; reflexivity. Qed.

Section ConstructionOutcomes.

Variable pf : platform_t.

Lemma degenerate_range_not_lt r :
  degenerate_range r -> float_lt (f_min r) (f_max r) = false.
Proof.
  intros [H | [H | H]]; rewrite H.
  - apply float_lt_irrefl.
  - apply float_lt_nan_l.
  - apply float_lt_nan_r.
Qed.

(** X4. The bounds of both ratio ranges must be strictly ordered numbers:
    when the red/green or the blue/green range has equal bounds or a NaN
    bound, a constructor call that the allocators serve fails with
    InvalidArgument, stores no handle, and leaves only the registers
    written before the checks changed. *)
Theorem new_awb_rejects_degenerate_ratio_ranges E cfg p w c q s i :
  alloc_ok pf E cfg p w c q s i ->
  (degenerate_range (red_green_ratio (white_patch cfg)) \/
   degenerate_range (blue_green_ratio (white_patch cfg))) ->
  esp_isp_new_awb_controller pf E (Some p) (Some cfg) true w
  = (ESP_ERR_INVALID_ARG, None, new_awb_rolled_back cfg p w).
Proof.
  intros Hok Hdeg.
  rewrite (new_awb_controller_run pf E cfg p w c q s i Hok).
  assert (Hr : cfg_ranges_ok pf cfg = false); [| rewrite Hr; reflexivity].
  unfold cfg_ranges_ok.
  destruct Hdeg as [H | H]; rewrite (degenerate_range_not_lt _ H); cbn.
  - destruct (isp_hal_awb_set_window_range _ _), (isp_hal_awb_set_luminance_range _ _ _);
      reflexivity.
  - apply andb_false_r.
Qed.

(** X5. What a successful construction establishes: the returned handle
    owns the processor's slot; seen through it the controller is in state
    Init with no token in the Gate, an empty Relay and no callback; the
    engine is idle, in algorithm mode, at the configured sample point;
    the handler is registered, disabled, with the controller as its
    argument; other processors are untouched. *)
Theorem new_awb_postcondition E cfg p w c q s i P :
  alloc_ok pf E cfg p w c q s i ->
  procs w !! p = Some P ->
  cfg_ranges_ok pf cfg = true ->
  exists w1,
    esp_isp_new_awb_controller pf E (Some p) (Some cfg) true w = (ESP_OK, Some c, w1) /\
    awb_ctlr (procs w1 !!! p) = Some c /\
    focus w1 c = fresh_machine p (hal_hw (procs w1 !!! p)) /\
    awb_en (hal_hw (procs w1 !!! p)) = false /\
    awb_algo_mode (hal_hw (procs w1 !!! p)) = true /\
    awb_sample_point (hal_hw (procs w1 !!! p)) = sample_point cfg /\
    intrs w1 !! i = Some (mk_intr c (awb_intr_alloc_flags pf cfg) false) /\
    (forall p', p' ≠ p -> procs w1 !! p' = procs w !! p').
Proof.
  intros Hok HP Hr. exists (new_awb_store pf cfg p c q s i w).
  rewrite (new_awb_controller_run pf E cfg p w c q s i Hok), Hr.
  destruct (focus_new_awb_store pf E cfg p w c q s i P Hok HP) as [Hfocus _].
  assert (Hproc : procs (new_awb_store pf cfg p c q s i w) !!! p
                  = mk_proc (Some c) (awb_configure_hw cfg (hal_hw P))).
  { unfold new_awb_store. cbn [procs].
    rewrite alter_alter_eq, lookup_total_alter_eq, HP. reflexivity. }
  rewrite Hproc, Hfocus. cbn [awb_ctlr hal_hw].
  repeat split.
  - unfold new_awb_store. cbn [intrs]. apply lookup_insert_eq.
  - intros p' Hne. unfold new_awb_store. cbn [procs].
    rewrite !lookup_alter_ne by congruence. reflexivity.
Qed.

(** X6. Construction followed by destruction: the destructor succeeds on
    the handle just returned, and afterwards the slot is empty, the
    controller memory, queue, semaphore and interrupt entry are gone (the
    tables are what they were before the construction), and algorithm
    mode is off. *)
Theorem new_then_del_roundtrip E cfg p w c q s i P :
  alloc_ok pf E cfg p w c q s i ->
  procs w !! p = Some P ->
  cfg_ranges_ok pf cfg = true ->
  exists w1 w2,
    esp_isp_new_awb_controller pf E (Some p) (Some cfg) true w = (ESP_OK, Some c, w1) /\
    esp_isp_del_awb_controller (Some c) w1 = (ESP_OK, w2) /\
    awb_ctlr (procs w2 !!! p) = None /\
    awb_algo_mode (hal_hw (procs w2 !!! p)) = false /\
    ctlrs w2 = ctlrs w /\ queues w2 = queues w /\
    sems w2 = sems w /\ intrs w2 = intrs w.
Proof.
  intros Hok HP Hr.
  rewrite (new_awb_controller_run pf E cfg p w c q s i Hok), Hr.
  destruct Hok as (_ & _ & Hcf & _ & Hqf & _ & Hsf & _ & Hif).
  assert (Hproc : procs (new_awb_store pf cfg p c q s i w) !!! p
                  = mk_proc (Some c) (awb_configure_hw cfg (hal_hw P))).
  { unfold new_awb_store. cbn [procs].
    rewrite alter_alter_eq, lookup_total_alter_eq, HP. reflexivity. }
  exists (new_awb_store pf cfg p c q s i w),
    (mk_store
       (alter (with_hw (isp_ll_awb_enable_algorithm_mode false) ∘ with_awb_ctlr None
               ∘ with_hw (awb_configure_hw cfg) ∘ with_awb_ctlr (Some c)) p (procs w))
       (ctlrs w) (queues w) (sems w) (intrs w)).
  split; [reflexivity |].
  assert (Hobj : ctlrs (new_awb_store pf cfg p c q s i w) !!! c
                 = mk_ctlr ISP_FSM_INIT (Some i) (Some p) (Some q) (Some s) (mk_cbs None) 0).
  { unfold new_awb_store. cbn [ctlrs]. apply lookup_total_insert_eq. }
  split.
  - unfold esp_isp_del_awb_controller.
    rewrite Hobj. cbn [isp_proc fsm]. rewrite Hproc. cbn [awb_ctlr].
    rewrite !decide_True by reflexivity. f_equal.
    unfold s_isp_declaim_awb_controller. rewrite Hobj. cbn [isp_proc].
    unfold new_awb_store, set_procs. cbn [procs ctlrs queues sems intrs].
    rewrite free_controller_flat by assumption.
    cbn [procs ctlrs queues sems intrs evt_que stat_lock intr_handle from_option].
    rewrite !delete_insert_id by assumption.
    rewrite !alter_alter_eq. reflexivity.
  - cbn [procs ctlrs queues sems intrs].
    rewrite lookup_total_alter_eq, HP. repeat split.
Qed.

(** X7. The destructor succeeds exactly on a controller that has a
    processor, owns that processor's slot and is in state Init; in every
    other case it fails, with InvalidState when only the state is wrong
    and InvalidArgument otherwise, and leaves the store as it is. *)
Theorem del_awb_outcome (ctlr : isp_awb_ctlr_t) w :
  let ok := exists c p, ctlr = Some c /\
                        isp_proc (ctlrs w !!! c) = Some p /\
                        awb_ctlr (procs w !!! p) = Some c /\
                        fsm (ctlrs w !!! c) = ISP_FSM_INIT in
  (fst (esp_isp_del_awb_controller ctlr w) = ESP_OK <-> ok) /\
  (fst (esp_isp_del_awb_controller ctlr w) ≠ ESP_OK ->
   snd (esp_isp_del_awb_controller ctlr w) = w) /\
  (fst (esp_isp_del_awb_controller ctlr w) = ESP_ERR_INVALID_STATE <->
   exists c p, ctlr = Some c /\
               isp_proc (ctlrs w !!! c) = Some p /\
               awb_ctlr (procs w !!! p) = Some c /\
               fsm (ctlrs w !!! c) ≠ ISP_FSM_INIT).
Proof.
  unfold esp_isp_del_awb_controller.
  destruct ctlr as [c |]; cbn.
  2: { repeat split; try discriminate; intros (c & p & H & _); discriminate. }
  destruct (isp_proc (ctlrs w !!! c)) as [p |] eqn:Hp; cbn.
  2: { repeat split; try discriminate; intros (c' & p' & H & H' & _);
       injection H as <-; congruence. }
  destruct (decide (awb_ctlr (procs w !!! p) = Some c)) as [Hown | Hown]; cbn.
  2: { repeat split; try discriminate; intros (c' & p' & H & H' & H'' & _);
       injection H as <-; rewrite Hp in H'; injection H' as <-; contradiction. }
  destruct (decide (fsm (ctlrs w !!! c) = ISP_FSM_INIT)) as [Hst | Hst]; cbn.
  - repeat split; try discriminate; try congruence.
    + intros _. exists c, p. auto.
    + intros (c' & p' & H & _ & _ & Hn). injection H as <-. contradiction.
  - repeat split; try discriminate; try congruence.
    + intros (c' & p' & H & _ & _ & Hi). injection H as <-. contradiction.
    + intros _. exists c, p. auto.
Qed.

End ConstructionOutcomes.

(** ** The API as a state machine *)

Section StateMachine.

Variable pf : platform_t.

Lemma block_on_preserves {X : Type} (P : awb_machine -> Prop)
    (try : awb_machine -> option (X * awb_machine)) fail ticks tr m x m' tr' :
  (forall e m0, P m0 -> P (env_step pf e m0)) ->
  (forall m0 x0 m1, try m0 = Some (x0, m1) -> P m0 -> P m1) ->
  P m ->
  block_on pf try fail ticks tr m = Some (x, m', tr') ->
  P m'.
Proof.
  intros Henv Htry. revert ticks m.
  induction tr as [| e tr IH]; intros ticks m HP; cbn [block_on].
  - destruct (try m) as [[x0 m1] |] eqn:Ht.
    + intros [= <- <- <-]. eapply Htry; eassumption.
    + destruct (ticks =? 0); [intros [= <- <- <-]; assumption |].
      destruct (ticks =? portMAX_DELAY); [discriminate | intros [= <- <- <-]; assumption].
  - destruct (try m) as [[x0 m1] |] eqn:Ht.
    + intros [= <- <- <-]. eapply Htry; eassumption.
    + destruct (ticks =? 0); [intros [= <- <- <-]; assumption |].
      destruct e as [| ev r woken].
      * apply IH. assumption.
      * apply IH. apply (Henv (EvIntr ev r woken)). assumption.
Qed.

Lemma env_step_settings e m :
  callbacks_of (env_step pf e m) = callbacks_of m /\
  arming_of (env_step pf e m) = arming_of m /\
  m_fsm (env_step pf e m) = m_fsm m /\
  m_stat_lock (env_step pf e m) = m_stat_lock m.
Proof.
  destruct e as [| ev r woken]; cbn; [auto |].
  destruct (isr_fire_spec pf ev r woken m)
    as (Hf & Hg & Hp & Hc & Hu & Hi & Hk & Hn & _).
  unfold callbacks_of, arming_of. rewrite Hf, Hg, Hp, Hc, Hu, Hi, Hk, Hn. auto.
Qed.

Lemma block_on_zero_trace {X : Type} (try : awb_machine -> option (X * awb_machine))
    fail tr m x m' tr' :
  block_on pf try fail 0 tr m = Some (x, m', tr') -> tr' = tr.
Proof.
  destruct tr; cbn [block_on]; destruct (try m) as [[x0 m1] |]; cbn;
    intros [= _ _ <-]; reflexivity.
Qed.

Lemma oneshot_ticks_nonneg timeout_ms : 0 <= oneshot_ticks pf timeout_ms.
Proof.
  unfold oneshot_ticks, pdMS_TO_TICKS, uint32_wrap, portMAX_DELAY.
  destruct (timeout_ms <? 0); [lia |].
  apply Z.div_pos; [| lia]. apply Z.mod_pos_bound. reflexivity.
Qed.

(** A one-shot request that returns from an Enabled controller: what it
    returns and where it leaves the machine. *)
Lemma oneshot_run_returns (c : handle) timeout_ms out_res tr m rc out m' tr' :
  m_fsm m = ISP_FSM_ENABLE ->
  (is_Some out_res \/ timeout_ms = 0) ->
  run pf (esp_isp_awb_controller_get_oneshot_statistics pf (Some c) timeout_ms out_res) tr m
  = Some ((rc, out), m', tr') ->
  (m_fsm m' = ISP_FSM_ENABLE /\ m_stat_lock m' = true /\ awb_en (m_hw m') = false) /\
  callbacks_of m' = callbacks_of m /\
  arming_of m' = arming_of m /\
  ((rc = ESP_OK /\ 0 < oneshot_ticks pf timeout_ms /\ is_Some out) \/
   (rc = ESP_OK /\ oneshot_ticks pf timeout_ms = 0 /\ out = out_res /\ tr' = tr) \/
   (rc = ESP_ERR_TIMEOUT /\ 0 < oneshot_ticks pf timeout_ms /\ out = out_res)).
Proof.
  intros Hst Hargs. rewrite oneshot_run by assumption.
  set (P := fun m0 : awb_machine =>
              callbacks_of m0 = callbacks_of m /\ arming_of m0 = arming_of m).
  assert (Henv : forall e m0, P m0 -> P (env_step pf e m0)).
  { intros e m0 [H1 H2]. destruct (env_step_settings e m0) as (H3 & H4 & _).
    split; congruence. }
  assert (Hsem : forall m0 (x0 : bool) m1, sem_try_take m0 = Some (x0, m1) -> P m0 -> P m1).
  { intros m0 x0 m1. unfold sem_try_take. destruct (m_stat_lock m0); [| discriminate].
    intros [= <- <-]. auto. }
  assert (Hque : forall m0 (x0 : option isp_awb_stat_result_t) m1,
             que_try_receive m0 = Some (x0, m1) -> P m0 -> P m1).
  { intros m0 x0 m1. unfold que_try_receive. destruct (m_evt_que m0); [| discriminate].
    intros [= <- <-]. auto. }
  destruct (block_on pf sem_try_take _ _ _ _) as [[[g m1] tr1] |] eqn:Hgate; [| discriminate].
  assert (H1 : P m1).
  { eapply (block_on_preserves P); [exact Henv | exact Hsem | | exact Hgate]. split; reflexivity. }
  destruct (Z.ltb_spec 0 (oneshot_ticks pf timeout_ms)) as [Hpos | Hpos].
  - destruct (block_on pf que_try_receive _ _ _ _) as [[[got m3] tr3] |] eqn:Hrelay;
      [| discriminate].
    assert (H3 : P m3).
    { eapply (block_on_preserves P); [exact Henv | exact Hque | | exact Hrelay]. exact H1. }
    destruct H3 as [H3c H3a].
    destruct got as [item |]; intros [= <- <- <- <-];
      (split; [repeat split |]); (split; [exact H3c |]); (split; [exact H3a |]);
      [left | right; right]; eauto.
  - destruct H1 as [H1c H1a].
    assert (Hz : oneshot_ticks pf timeout_ms = 0)
      by (pose proof (oneshot_ticks_nonneg timeout_ms); lia).
    rewrite Hz in Hgate. apply block_on_zero_trace in Hgate. subst tr1.
    intros [= <- <- <- <-].
    (split; [repeat split |]); (split; [exact H1c |]); (split; [exact H1a |]).
    right; left. auto.
Qed.

End StateMachine.

Section StateMachineOutcome.

Variable pf : platform_t.

Lemma register_run (c : handle) cb ud iram internal tr m :
  run pf (esp_isp_awb_register_event_callbacks pf (Some c) (Some cb) ud iram internal) tr m =
  Some (if decide (m_fsm m = ISP_FSM_INIT) then
          if CONFIG_ISP_ISR_IRAM_SAFE pf &&
             bool_decide (is_Some (on_statistics_done cb)) && negb iram
          then (ESP_ERR_INVALID_ARG, m)
          else if CONFIG_ISP_ISR_IRAM_SAFE pf && bool_decide (ud ≠ 0) && negb internal
               then (ESP_ERR_INVALID_ARG, m)
               else (ESP_OK, registered_from cb ud m)
        else (ESP_ERR_INVALID_STATE, m), tr).
Proof.
  unfold esp_isp_awb_register_event_callbacks. cbn.
  destruct (decide (m_fsm m ≠ ISP_FSM_INIT)), (decide (m_fsm m = ISP_FSM_INIT));
    try contradiction; cbn; try reflexivity.
  destruct (_ && negb iram); cbn; [reflexivity |].
  destruct (_ && negb internal); reflexivity.
Qed.

Lemma api_call_outcome (ctlr : isp_awb_ctlr_t) call tr m rc out m' tr' :
  run pf (api_prog pf ctlr call) tr m = Some ((rc, out), m', tr') ->
  ((rc = ESP_ERR_INVALID_ARG \/ rc = ESP_ERR_INVALID_STATE) /\
   m' = m /\ tr' = tr /\ out = call_out_res call) \/
  ((rc = ESP_OK \/ (rc = ESP_ERR_TIMEOUT /\ exists t o, call = CallOneshot t o)) /\
   is_Some ctlr /\
   m_fsm m = call_requires call /\
   m_fsm m' = call_leaves call /\
   (touches_callbacks call = false -> callbacks_of m' = callbacks_of m) /\
   (touches_arming call = false -> arming_of m' = arming_of m)).
Proof.
  destruct ctlr as [c |].
  2: { destruct call as [cb ud iram internal | | | t o | |]; cbn;
       intros [= <- <- <- <-]; left; auto. }
  destruct call as [[cb |] ud iram internal | | | t o | |]; unfold api_prog;
    rewrite ?run_bind.
  - rewrite register_run.
    destruct (decide (m_fsm m = ISP_FSM_INIT)) as [Hst | Hst].
    + destruct (_ && negb iram); [cbn; intros [= <- <- <- <-]; left; auto |].
      destruct (_ && negb internal); cbn; intros [= <- <- <- <-]; [left; auto |].
      right. repeat split; eauto; discriminate.
    + cbn; intros [= <- <- <- <-]; left; auto.
  - cbn. intros [= <- <- <- <-]; left; auto.
  - rewrite enable_run.
    destruct (decide (m_isp_proc m = None)); [cbn; intros [= <- <- <- <-]; left; auto |].
    destruct (decide (m_fsm m = ISP_FSM_INIT)) as [Hst | Hst];
      cbn; intros [= <- <- <- <-]; [| left; auto].
    right. repeat split; eauto; discriminate.
  - rewrite disable_run.
    destruct (decide (m_isp_proc m = None)); [cbn; intros [= <- <- <- <-]; left; auto |].
    destruct (decide (m_fsm m = ISP_FSM_ENABLE)) as [Hst | Hst];
      cbn; intros [= <- <- <- <-]; [| left; auto].
    right. repeat split; eauto; discriminate.
  - intros Hrun.
    destruct (decide (m_fsm m = ISP_FSM_ENABLE)) as [Hst | Hst].
    + destruct (decide (is_Some o \/ t = 0)) as [Hargs | Hargs].
      * destruct (oneshot_run_returns pf c t o tr m rc out m' tr' Hst Hargs Hrun)
          as ((Hf & _) & Hcb & Har & Hrc).
        right. repeat split; eauto.
        destruct Hrc as [(-> & _) | [(-> & _) | (-> & _)]]; eauto.
      * pose proof (oneshot_run_rejected pf c t o tr m _ _ _ (or_intror Hargs) Hrun) as ->.
        revert Hrun. unfold esp_isp_awb_controller_get_oneshot_statistics.
        destruct (negb _) eqn:Hchk; cbn.
        -- intros [= <- <- <-]. left; auto.
        -- exfalso. apply Hargs.
           apply negb_false_iff, andb_true_iff in Hchk as [_ Hor].
           apply orb_true_iff in Hor as [Ho | Ht].
           ++ left. eapply bool_decide_eq_true_1, Ho.
           ++ right. apply Z.eqb_eq, Ht.
    + pose proof (oneshot_run_rejected pf c t o tr m _ _ _ (or_introl Hst) Hrun) as ->.
      revert Hrun. unfold esp_isp_awb_controller_get_oneshot_statistics.
      destruct (negb _); cbn; [intros [= <- <- <-]; left; auto |].
      destruct (decide (m_fsm m ≠ ISP_FSM_ENABLE)); [| contradiction].
      cbn. intros [= <- <- <-]; left; auto.
  - rewrite start_continuous_run.
    destruct (decide (m_fsm m = ISP_FSM_ENABLE)) as [Hst | Hst];
      [destruct (m_stat_lock m) |]; cbn; intros [= <- <- <- <-]; try (left; auto; fail).
    right. repeat split; eauto; discriminate.
  - rewrite stop_continuous_run.
    destruct (decide (m_fsm m = ISP_FSM_START)) as [Hst | Hst];
      cbn; intros [= <- <- <- <-]; [| left; auto].
    right. repeat split; eauto; discriminate.
Qed.

End StateMachineOutcome.

Section StateMachineTheorems.

Variable pf : platform_t.

Lemma api_call_rejected_returns (ctlr : isp_awb_ctlr_t) call tr m :
  (ctlr = None \/ m_fsm m ≠ call_requires call) ->
  is_Some (run pf (api_prog pf ctlr call) tr m).
Proof.
  intros Hrej. destruct ctlr as [c |].
  2: { destruct call; cbn; eauto. }
  destruct Hrej as [Hn | Hst]; [discriminate |].
  destruct call as [[cb |] ud iram internal | | | t o | |]; unfold api_prog;
    rewrite ?run_bind; cbn [call_requires] in Hst.
  - rewrite register_run.
    match goal with |- is_Some (let (a, m0) := ?x in _) => destruct x end; cbn; eauto.
  - cbn. eauto.
  - rewrite enable_run.
    match goal with |- is_Some (let (a, m0) := ?x in _) => destruct x end; cbn; eauto.
  - rewrite disable_run.
    match goal with |- is_Some (let (a, m0) := ?x in _) => destruct x end; cbn; eauto.
  - unfold esp_isp_awb_controller_get_oneshot_statistics.
    destruct (negb _); cbn; [eauto |].
    destruct (decide (m_fsm m ≠ ISP_FSM_ENABLE)); [cbn; eauto | contradiction].
  - rewrite start_continuous_run.
    match goal with |- is_Some (let (a, m0) := ?x in _) => destruct x end; cbn; eauto.
  - rewrite stop_continuous_run.
    match goal with |- is_Some (let (a, m0) := ?x in _) => destruct x end; cbn; eauto.
Qed.

(** X8. A call on [NULL], or made in a state other than the one it
    requires (registering or enabling outside Init; disabling, a one-shot
    request or starting outside Enabled; stopping outside Started),
    returns at once with InvalidArgument or InvalidState and changes
    nothing: the machine, callbacks included, the environment and the
    caller's buffer are as they were. *)
Theorem api_call_in_wrong_state (ctlr : isp_awb_ctlr_t) call tr m :
  (ctlr = None \/ m_fsm m ≠ call_requires call) ->
  exists rc,
    run pf (api_prog pf ctlr call) tr m = Some ((rc, call_out_res call), m, tr) /\
    (rc = ESP_ERR_INVALID_ARG \/ rc = ESP_ERR_INVALID_STATE).
Proof.
  intros Hrej.
  destruct (api_call_rejected_returns ctlr call tr m Hrej) as [[[[rc out] m'] tr'] Hrun].
  destruct (api_call_outcome pf ctlr call tr m rc out m' tr' Hrun)
    as [(Hrc & -> & -> & ->) | (_ & [c Hc] & Hst & _)].
  - exists rc. auto.
  - exfalso. destruct Hrej as [Hn | Hn]; congruence.
Qed.

(** X9. Whatever the state, a call that returns InvalidArgument or
    InvalidState has had no effect on the machine, has consumed nothing
    of the environment and has not written the caller's buffer. This
    covers a busy [start_continuous], a one-shot request with no buffer
    and a non-zero timeout, and a registration refused for residency. *)
Theorem api_call_failure_has_no_effect (ctlr : isp_awb_ctlr_t) call tr m rc out m' tr' :
  run pf (api_prog pf ctlr call) tr m = Some ((rc, out), m', tr') ->
  (rc = ESP_ERR_INVALID_ARG \/ rc = ESP_ERR_INVALID_STATE) ->
  m' = m /\ tr' = tr /\ out = call_out_res call.
Proof.
  intros Hrun Hrc.
  destruct (api_call_outcome pf ctlr call tr m rc out m' tr' Hrun)
    as [(_ & H) | ([Hok | (Hto & _)] & _)]; [exact H | |];
    destruct Hrc; congruence.
Qed.

(** X10. A call that returns ESP_OK, or a one-shot request that returns
    Timeout, was made on a non-null controller in the state the call
    requires and leaves the state of its transition: Init to Enabled for
    [enable], Enabled to Init for [disable], Enabled to Started for
    [start], Started to Enabled for [stop], Enabled to Enabled for a
    one-shot request, Init to Init for a registration. Only a
    registration changes the callback and its context; only [enable] and
    [disable] change the arming of interrupt and clock. No other code is
    ever returned, and Timeout only by a one-shot request. *)
Theorem api_call_success_transition (ctlr : isp_awb_ctlr_t) call tr m rc out m' tr' :
  run pf (api_prog pf ctlr call) tr m = Some ((rc, out), m', tr') ->
  (rc = ESP_OK \/ rc = ESP_ERR_TIMEOUT \/
   rc = ESP_ERR_INVALID_ARG \/ rc = ESP_ERR_INVALID_STATE) /\
  (rc = ESP_ERR_TIMEOUT -> exists t o, call = CallOneshot t o) /\
  (rc = ESP_OK \/ rc = ESP_ERR_TIMEOUT ->
   is_Some ctlr /\
   m_fsm m = call_requires call /\
   m_fsm m' = call_leaves call /\
   (touches_callbacks call = false -> callbacks_of m' = callbacks_of m) /\
   (touches_arming call = false -> arming_of m' = arming_of m)).
Proof.
  intros Hrun.
  destruct (api_call_outcome pf ctlr call tr m rc out m' tr' Hrun)
    as [([-> | ->] & _) | ([-> | (-> & Hone)] & H)];
    (split; [auto |]); (split; [try discriminate; auto |]);
    intros [Hc | Hc]; try discriminate; exact H.
Qed.

End StateMachineTheorems.

(** ** The interrupt handler over time *)

Section HandlerOverTime.

Variable pf : platform_t.

Lemma isr_fire_yields ev r woken m :
  m_yields (isr_fire pf ev r woken m)
  = if fdone_pending pf ev && (callback_says m r || woken)
    then S (m_yields m) else m_yields m.
Proof.
  destruct m as [st p g q [cb] ud io h wk y], r as [wp sr sg sb].
  unfold isr_fire, s_isp_awb_default_isr, fdone_pending, callback_says. cbn.
  destruct (decide _) as [Hf | Hf]; cbn.
  - apply Z.eqb_neq in Hf. rewrite Hf. cbn.
    destruct cb as [f |]; cbn;
      destruct (decide (st = ISP_FSM_START)) as [-> | Hst]; cbn;
      try destruct (f _ _); try destruct woken; reflexivity.
  - apply dec_stable in Hf. apply Z.eqb_eq in Hf. rewrite Hf. reflexivity.
Qed.

(** X12. An interrupt that does not carry the frame-done event leaves the
    controller alone: state, Gate, Relay, engine enable, trigger count,
    callback, arming and yield count are unchanged. *)
Theorem isr_without_fdone_is_inert ev r woken m :
  fdone_pending pf ev = false ->
  observe (isr_fire pf ev r woken m) = observe m /\
  awb_triggers (m_hw (isr_fire pf ev r woken m)) = awb_triggers (m_hw m) /\
  callbacks_of (isr_fire pf ev r woken m) = callbacks_of m /\
  arming_of (isr_fire pf ev r woken m) = arming_of m /\
  m_yields (isr_fire pf ev r woken m) = m_yields m.
Proof.
  intros Hf.
  destruct (isr_fire_spec pf ev r woken m)
    as (H1 & H2 & H3 & H4 & H5 & H6 & H7 & H8 & H9 & H10 & H11).
  rewrite Hf in H9, H10, H11. cbn in H10, H11.
  unfold observe, callbacks_of, arming_of.
  rewrite isr_fire_yields, Hf, H1, H2, H3, H4, H5, H6, H7, H8, H9, H10, H11.
  repeat split.
Qed.

(** X13. On a frame-done interrupt the handler puts the accumulators'
    values in the Relay, replacing what was there, and asks for a context
    switch exactly when the registered callback, called on those values
    and the registered context, says so or the push woke a task; without
    a callback only the push counts. State and Gate are not touched. *)
Theorem isr_on_fdone ev r woken m :
  fdone_pending pf ev = true ->
  m_evt_que (isr_fire pf ev r woken m) = Some r /\
  m_yields (isr_fire pf ev r woken m)
  = (if callback_says m r || woken then S (m_yields m) else m_yields m) /\
  (on_statistics_done (m_cbs m) = None ->
   m_yields (isr_fire pf ev r woken m) = if woken then S (m_yields m) else m_yields m) /\
  m_fsm (isr_fire pf ev r woken m) = m_fsm m /\
  m_stat_lock (isr_fire pf ev r woken m) = m_stat_lock m.
Proof.
  intros Hf.
  destruct (isr_fire_spec pf ev r woken m) as (H1 & H2 & _ & _ & _ & _ & _ & _ & H9 & _).
  rewrite Hf in H9. rewrite isr_fire_yields, Hf. cbn [andb].
  repeat split; try assumption.
  intros Hcb. unfold callback_says. rewrite Hcb. reflexivity.
Qed.

Lemma env_steps_cons e evs m :
  env_steps pf (e :: evs) m = env_steps pf evs (env_step pf e m).
Proof. reflexivity. Qed.

(** X14. Over any stretch of ticks and interrupts the handler triggers
    the engine once per finished window while the state is Started and
    never otherwise; the Relay ends up holding the result of the last
    finished window, or what it held if there was none; the yields asked
    for are those of the finished windows; state and Gate do not move. *)
Theorem handler_over_a_stretch evs m :
  awb_triggers (m_hw (env_steps pf evs m))
  = (awb_triggers (m_hw m)
     + if bool_decide (m_fsm m = ISP_FSM_START) then completions pf evs else 0)%nat /\
  m_evt_que (env_steps pf evs m) = last_window pf evs (m_evt_que m) /\
  m_yields (env_steps pf evs m) = (m_yields m + yield_requests pf m evs)%nat /\
  m_fsm (env_steps pf evs m) = m_fsm m /\
  m_stat_lock (env_steps pf evs m) = m_stat_lock m.
Proof.
  revert m. induction evs as [| e evs IH]; intros m.
  - cbn. destruct (bool_decide _); repeat split; lia.
  - rewrite env_steps_cons.
    destruct (IH (env_step pf e m)) as (Ht & Hq & Hy & Hf & Hg).
    rewrite Ht, Hq, Hy, Hf, Hg. clear IH Ht Hq Hy Hf Hg.
    destruct e as [| ev r woken]; cbn [env_step completions last_window yield_requests].
    + repeat split.
    + destruct (isr_fire_spec pf ev r woken m)
        as (H1 & H2 & _ & H4 & H5 & _ & _ & _ & H9 & _ & H11).
      rewrite H1, H2, H9, H11, isr_fire_yields.
      assert (Hy : yield_requests pf (isr_fire pf ev r woken m) evs = yield_requests pf m evs).
      { clear -H4 H5. induction evs as [| [| ev' r' w'] evs IH]; cbn; [reflexivity | exact IH |].
        rewrite IH. unfold callback_says. rewrite H4, H5. reflexivity. }
      rewrite Hy.
      destruct (fdone_pending pf ev), (bool_decide (m_fsm m = ISP_FSM_START)),
        (callback_says m r || woken); cbn; repeat split; lia.
Qed.

End HandlerOverTime.

(** ** What a one-shot request delivers *)

(** A stretch of a schedule is part of it, and a result found in the
    Relay after a stretch was put there by a window served in it. *)
Lemma after_own_suffix n ss : exists pre, ss = pre ++ after_own n ss.
Proof.
  revert n. induction ss as [| s ss IH]; intros n.
  - exists []. destruct n; reflexivity.
  - destruct n as [| n]; [exists []; reflexivity |].
    destruct s as [t | t | ev r w]; cbn.
    + destruct (IH n) as [pre Hpre]. exists (Run t :: pre). cbn. congruence.
    + destruct (IH n) as [pre Hpre]. exists (Deadline t :: pre). cbn. congruence.
    + destruct (IH (S n)) as [pre Hpre]. exists (Interrupt ev r w :: pre). cbn. congruence.
Qed.

Lemma before_own_prefix n ss : exists post, ss = before_own n ss ++ post.
Proof.
  revert n. induction ss as [| s ss IH]; intros n.
  - exists []. reflexivity.
  - destruct s as [t | t | ev r w]; cbn.
    + destruct n as [| n]; [exists (Run t :: ss); reflexivity |].
      destruct (IH n) as [post Hpost]. exists post. cbn. congruence.
    + destruct n as [| n]; [exists (Deadline t :: ss); reflexivity |].
      destruct (IH n) as [post Hpost]. exists post. cbn. congruence.
    + destruct (IH n) as [post Hpost]. exists post. cbn. congruence.
Qed.

Section OneshotDelivery.

Variable pf : platform_t.

Lemma last_completion_served l q r :
  last_completion pf l q = Some r ->
  q = Some r \/ window_served pf r l.
Proof.
  revert q. induction l as [| s l IH]; intros q; cbn; [auto |].
  destruct s as [t | t | ev r0 w].
  - intros H. destruct (IH _ H) as [Hq | (s1 & ev & w & s2 & -> & Hf)]; [auto |].
    right. exists (Run t :: s1), ev, w, s2. auto.
  - intros H. destruct (IH _ H) as [Hq | (s1 & ev & w & s2 & -> & Hf)]; [auto |].
    right. exists (Deadline t :: s1), ev, w, s2. auto.
  - intros H. destruct (IH _ H) as [Hq | (s1 & ev' & w' & s2 & -> & Hf)].
    + destruct (fdone_pending pf ev) eqn:Hf; [| auto].
      injection Hq as ->. right. exists [], ev, w, l. auto.
    + right. exists (Interrupt ev r0 w :: s1), ev', w', s2. auto.
Qed.

Lemma window_served_between a b r ss :
  window_served pf r (between_own a b ss) -> window_served pf r ss.
Proof.
  unfold between_own. intros (s1 & ev & w & s2 & Hl & Hf).
  destruct (after_own_suffix a ss) as [pre Hpre].
  destruct (before_own_prefix (b - a - 1) (after_own a ss)) as [post Hpost].
  exists (pre ++ s1), ev, w, (s2 ++ post). split; [| exact Hf].
  rewrite Hpre at 1. rewrite Hpost at 1. rewrite Hl.
  rewrite <- !app_assoc. reflexivity.
Qed.

(** X11. A one-shot request that returns from an Enabled controller,
    whatever interrupts are served during it, leaves the state Enabled
    and the Gate available. The engine is enabled on return exactly when
    a frame-done interrupt was served while two steps of the request
    were left, that is, between its write that disables the engine and
    its write of the state. With a positive block time it returns either
    ESP_OK with, in the caller's buffer, the result of a window that
    finished during the call, or Timeout with the buffer untouched; with
    a zero block time it returns ESP_OK with the buffer untouched. *)
Theorem oneshot_outcome (c : handle) timeout_ms out_res ss m m' rc out :
  m_fsm m = ISP_FSM_ENABLE ->
  (is_Some out_res \/ timeout_ms = 0) ->
  interleave pf ss
    (m, [esp_isp_awb_controller_get_oneshot_statistics pf (Some c) timeout_ms out_res])
  = Some (m', [Ret (rc, out)]) ->
  (m_fsm m' = ISP_FSM_ENABLE /\ m_stat_lock m' = true /\
   awb_en (m_hw m') = completion_with_left pf 2 ss) /\
  ((rc = ESP_OK /\ 0 < oneshot_ticks pf timeout_ms /\
    exists r, out = Some r /\ window_served pf r ss) \/
   (rc = ESP_OK /\ oneshot_ticks pf timeout_ms = 0 /\ out = out_res) \/
   (rc = ESP_ERR_TIMEOUT /\ 0 < oneshot_ticks pf timeout_ms /\ out = out_res)).
Proof.
  intros Hst Hargs Hrun.
  destruct (oneshot_preempted pf c timeout_ms out_res ss m m' rc out Hst Hargs Hrun)
    as (Hf & Hg & _ & _ & He & Hres).
  split; [auto |].
  destruct (Z.ltb_spec 0 (oneshot_ticks pf timeout_ms)) as [Hpos | Hpos].
  - destruct Hres as [_ Hres].
    change (before_own 1 (after_own 4 ss)) with (between_own 4 6 ss) in Hres.
    destruct (last_completion pf (between_own 4 6 ss) None) as [r |] eqn:Hl.
    + destruct Hres as [-> ->]. left. repeat split; [assumption |].
      exists r. split; [reflexivity |].
      destruct (last_completion_served _ _ _ Hl) as [Hq | Hw]; [discriminate |].
      eapply window_served_between, Hw.
    + destruct Hres as [-> ->]. right; right. auto.
  - destruct Hres as (_ & -> & ->). right; left.
    pose proof (oneshot_ticks_nonneg pf timeout_ms). repeat split. lia.
Qed.


End OneshotDelivery.

(** ** One task: what holds of every reachable controller *)

Section SequentialUse.

Variable pf : platform_t.

(** Each call keeps the discipline, wherever the handler preempts it. *)
Lemma discipline_handlers ss m : discipline m -> discipline (handlers pf ss m).
Proof.
  unfold discipline, armed. mach. auto.
Qed.

Ltac fin Hst :=
  unfold discipline, armed in *; mach; rewrite ?Hst in *; intuition (eauto; congruence).

Lemma enable_preempted (c : handle) ss m m' res :
  interleave pf ss (m, [esp_isp_awb_controller_enable (Some c)]) = Some (m', [Ret res]) ->
  discipline m -> discipline m'.
Proof.
  intros H Hd. unfold esp_isp_awb_controller_enable in H. cbn in H.
  peel_run H i0 Ho0. rewrite handlers_isp_proc in H.
  destruct Hd as [[p Hp] Hd]. rewrite Hp in H. cbn in H.
  peel_run H i1 Ho1. mach_in H.
  destruct (m_fsm m) eqn:Hst; dec_in H.
  - peel_runs H. peel_end H Hoe Hts. fin Hst.
  - peel_end H Hoe Hts. fin Hst.
  - peel_end H Hoe Hts. fin Hst.
Qed.

Lemma disable_preempted (c : handle) ss m m' res :
  interleave pf ss (m, [esp_isp_awb_controller_disable (Some c)]) = Some (m', [Ret res]) ->
  discipline m -> discipline m'.
Proof.
  intros H Hd. unfold esp_isp_awb_controller_disable in H. cbn in H.
  peel_run H i0 Ho0. rewrite handlers_isp_proc in H.
  destruct Hd as [[p Hp] Hd]. rewrite Hp in H. cbn in H.
  peel_run H i1 Ho1. mach_in H.
  destruct (m_fsm m) eqn:Hst; dec_in H.
  - peel_end H Hoe Hts. fin Hst.
  - peel_runs H. peel_take H i6 Ho6 Hs6. peel_end H Hoe Hts. fin Hst.
  - peel_end H Hoe Hts. fin Hst.
Qed.

Lemma start_preempted (c : handle) ss m m' res :
  interleave pf ss (m, [esp_isp_awb_controller_start_continuous_statistics (Some c)])
  = Some (m', [Ret res]) ->
  discipline m -> discipline m'.
Proof.
  intros H Hd. unfold esp_isp_awb_controller_start_continuous_statistics in H. cbn in H.
  destruct Hd as [[p Hp] Hd].
  peel_run H i1 Ho1. mach_in H.
  destruct (m_fsm m) eqn:Hst; dec_in H.
  - peel_end H Hoe Hts. fin Hst.
  - peel_take H i2 Ho2 Hs2. mach_in H. destruct Hd as [Hg Ha]. rewrite Hg in H.
    cbn [negb] in H. peel_runs H. peel_end H Hoe Hts. fin Hst.
  - peel_end H Hoe Hts. fin Hst.
Qed.

Lemma stop_preempted (c : handle) ss m m' res :
  interleave pf ss (m, [esp_isp_awb_controller_stop_continuous_statistics (Some c)])
  = Some (m', [Ret res]) ->
  discipline m -> discipline m'.
Proof.
  intros H Hd. unfold esp_isp_awb_controller_stop_continuous_statistics in H. cbn in H.
  destruct Hd as [[p Hp] Hd].
  peel_run H i1 Ho1. mach_in H.
  destruct (m_fsm m) eqn:Hst; dec_in H.
  - peel_end H Hoe Hts. fin Hst.
  - peel_end H Hoe Hts. fin Hst.
  - peel_runs H. peel_end H Hoe Hts. fin Hst.
Qed.

Lemma register_preempted (c : handle) cb ud iram internal ss m m' res :
  interleave pf ss
    (m, [esp_isp_awb_register_event_callbacks pf (Some c) cb ud iram internal])
  = Some (m', [Ret res]) ->
  discipline m -> discipline m'.
Proof.
  intros H Hd. unfold esp_isp_awb_register_event_callbacks in H.
  destruct Hd as [[p Hp] Hd].
  destruct cb as [cb |].
  2: { peel_end H Hoe Hts. fin Hp. }
  peel_run H i1 Ho1. mach_in H.
  destruct (m_fsm m) eqn:Hst; dec_in H.
  - destruct (_ && negb iram); [peel_end H Hoe Hts; fin Hst |].
    destruct (_ && negb internal); [peel_end H Hoe Hts; fin Hst |].
    peel_runs H. peel_end H Hoe Hts. fin Hst.
  - peel_end H Hoe Hts. fin Hst.
  - peel_end H Hoe Hts. fin Hst.
Qed.

Lemma oneshot_preempted_discipline (c : handle) timeout_ms out_res ss m m' res :
  interleave pf ss
    (m, [esp_isp_awb_controller_get_oneshot_statistics pf (Some c) timeout_ms out_res])
  = Some (m', [Ret res]) ->
  discipline m -> discipline m'.
Proof.
  intros H Hd.
  destruct (decide (is_Some out_res \/ timeout_ms = 0)) as [Hargs | Hargs].
  - destruct (decide (m_fsm m = ISP_FSM_ENABLE)) as [Hst | Hst].
    + destruct res as [rc out].
      destruct (oneshot_preempted pf c timeout_ms out_res ss m m' rc out Hst Hargs H)
        as (Hf & Hg & _ & Ha & _).
      unfold discipline, armed, arming_of in *. rewrite Hst in Hd.
      injection Ha as -> -> -> ->. rewrite Hf, Hg. tauto.
    + unfold esp_isp_awb_controller_get_oneshot_statistics in H.
      destruct (negb _); [peel_end H Hoe Hts; fin Hst |].
      peel_run H i1 Ho1. mach_in H. dec_in H. peel_end H Hoe Hts.
      apply discipline_handlers, discipline_handlers, Hd.
  - unfold esp_isp_awb_controller_get_oneshot_statistics in H.
    destruct (negb _) eqn:Hchk.
    + peel_end H Hoe Hts. apply discipline_handlers, Hd.
    + exfalso. apply Hargs.
      apply negb_false_iff, andb_true_iff in Hchk as [_ Hor].
      apply orb_true_iff in Hor as [Ho | Ht].
      * left. eapply bool_decide_eq_true_1, Ho.
      * right. apply Z.eqb_eq, Ht.
Qed.

Lemma reachable_discipline (c : handle) m : reachable pf c m -> discipline m.
Proof.
  induction 1 as [p h Hh
                 | m cb ud iram internal ss res m' _ IH Hrun
                 | m ss res m' _ IH Hrun
                 | m ss res m' _ IH Hrun
                 | m timeout_ms out_res ss res m' _ IH Hrun
                 | m ss res m' _ IH Hrun
                 | m ss res m' _ IH Hrun
                 | m ev r woken _ IH].
  - split; [eexists; reflexivity | reflexivity].
  - eapply register_preempted; eassumption.
  - eapply enable_preempted; eassumption.
  - eapply disable_preempted; eassumption.
  - eapply oneshot_preempted_discipline; eassumption.
  - eapply start_preempted; eassumption.
  - eapply stop_preempted; eassumption.
  - apply (discipline_handlers [Interrupt ev r woken] m IH).
Qed.

Lemma reachable_enabled (c : handle) m :
  reachable pf c m ->
  m_fsm m = ISP_FSM_ENABLE ->
  is_Some (m_isp_proc m) /\ m_stat_lock m = true /\
  m_intr_on m = true /\ awb_clk_en (m_hw m) = true /\ awb_intr_en (m_hw m) = true.
Proof.
  intros Hreach Hst.
  destruct (reachable_discipline c m Hreach) as [Hp Hd].
  rewrite Hst in Hd. destruct Hd as (Hg & Hi & Hk & Hn). auto.
Qed.

(** X16. The discipline one task keeps between its calls, whatever calls
    it makes and wherever the handler preempts them: in state Init the
    Gate holds no token; in state Enabled the Gate is available; in state
    Started the Gate is taken; and outside Init the interrupt and the
    clock are armed. *)
Theorem sequential_discipline (c : handle) m :
  reachable pf c m ->
  (m_fsm m = ISP_FSM_INIT -> m_stat_lock m = false) /\
  (m_fsm m = ISP_FSM_ENABLE -> m_stat_lock m = true /\ armed m) /\
  (m_fsm m = ISP_FSM_START -> m_stat_lock m = false /\ armed m).
Proof.
  intros Hreach.
  destruct (reachable_discipline c m Hreach) as [_ Hd].
  split; [| split]; intros Hst; rewrite Hst in Hd; exact Hd.
Qed.

(** X17. On an Enabled controller that one task can reach, [disable]
    followed by [enable] succeeds both times and brings back what could
    be observed before: state Enabled, Gate available, the Relay's
    content, the engine's enable bit, interrupt and clock armed. *)
Theorem disable_enable_roundtrip (c : handle) m tr :
  reachable pf c m ->
  m_fsm m = ISP_FSM_ENABLE ->
  exists m',
    run pf (disable_enable_cycle c) tr m = Some ((ESP_OK, ESP_OK), m', tr) /\
    observe m' = observe m.
Proof.
  intros Hreach Hst.
  destruct (reachable_enabled c m Hreach Hst) as (Hp & Hg & Hi & Hk & Hn).
  exists (enabled_from (disabled_from m)). unfold disable_enable_cycle.
  rewrite run_bind, disable_run.
  destruct (decide (m_isp_proc m = None)) as [Hnone | _]; [destruct Hp; congruence |].
  destruct (decide (m_fsm m = ISP_FSM_ENABLE)) as [_ | Hn']; [| contradiction].
  rewrite run_bind, enable_run. cbn [disabled_from upd_stat_lock upd_fsm upd_intr_on upd_hw
                                     m_isp_proc m_fsm].
  destruct (decide (m_isp_proc m = None)) as [Hnone | _]; [destruct Hp; congruence |].
  destruct (decide (ISP_FSM_INIT = ISP_FSM_INIT)) as [_ | Hn']; [| contradiction].
  split; [reflexivity |].
  unfold observe. cbn. rewrite Hst, Hg, Hi, Hk, Hn. reflexivity.
Qed.

End SequentialUse.

(** ** A continuous session preempted by the handler *)

Section ContinuousSession.

Variable pf : platform_t.


End ContinuousSession.

(** ** Two tasks starting continuous statistics *)

Ltac explore_schedules H Hts Hret :=
  match type of H with
  | interleave _ ?ss _ = Some _ =>
      destruct ss as [| [[| [| ?] ] | [| [| ?] ] | ? ? ?] ss];
      [ cbn [interleave] in H; injection H as <- <-; cbn in Hret;
        try discriminate; injection Hret as <- <-; auto
      | cbn [interleave] in H; lazy -[interleave] in H;
        try discriminate; explore_schedules H Hts Hret ..
      | cbn in Hts; discriminate ]
  end.

(** X18. Two tasks call [start_continuous] on an Enabled controller whose
    Gate is available. However their steps interleave, once both have
    returned exactly one has ESP_OK and the other InvalidState, and the
    machine is what one successful start leaves: the token taken once,
    state Started, the engine triggered once. *)
Theorem two_starts_one_winner (pf : platform_t) (c : handle) m ss m' r0 r1 ts :
  m_fsm m = ISP_FSM_ENABLE ->
  m_stat_lock m = true ->
  task_steps_only ss = true ->
  interleave pf ss (m, two_starts c) = Some (m', ts) ->
  map returned ts = [Some r0; Some r1] ->
  ((r0 = ESP_OK /\ r1 = ESP_ERR_INVALID_STATE) \/
   (r0 = ESP_ERR_INVALID_STATE /\ r1 = ESP_OK)) /\
  m' = started_from m.
Proof.
  destruct m as [st p g q cb ud io h wk y]. cbn [m_fsm m_stat_lock].
  intros -> -> Hts H Hret. unfold two_starts in H.
  explore_schedules H Hts Hret.
Qed.

(** ** The claim registry *)

(** X19. A claim on a live processor with an empty slot succeeds and
    makes the controller the owner; while the slot is owned every further
    claim on that processor fails with NotFound and changes nothing; and
    the owner's declaim gives back the store as it was before the claim. *)
Theorem claim_declaim_roundtrip w p c P :
  procs w !! p = Some P ->
  awb_ctlr P = None ->
  isp_proc (ctlrs w !!! c) = Some p ->
  exists w1,
    s_isp_claim_awb_controller p c w = (ESP_OK, w1) /\
    awb_ctlr (procs w1 !!! p) = Some c /\
    (forall c2, s_isp_claim_awb_controller p c2 w1 = (ESP_ERR_NOT_FOUND, w1)) /\
    s_isp_declaim_awb_controller (Some c) w1 = w.
Proof.
  intros HP Hslot Hproc.
  exists (set_procs (alter (with_awb_ctlr (Some c)) p) w).
  assert (Hown : awb_ctlr (procs (set_procs (alter (with_awb_ctlr (Some c)) p) w) !!! p)
                 = Some c).
  { unfold set_procs. cbn [procs]. rewrite lookup_total_alter_eq, HP. reflexivity. }
  repeat split.
  - unfold s_isp_claim_awb_controller.
    rewrite (lookup_total_correct _ _ _ HP), Hslot. reflexivity.
  - exact Hown.
  - intros c2. unfold s_isp_claim_awb_controller. rewrite Hown. reflexivity.
  - unfold s_isp_declaim_awb_controller, set_procs. cbn [ctlrs procs queues sems intrs].
    rewrite Hproc. rewrite alter_alter_eq, alter_id; [destruct w; reflexivity |].
    intros x Hx. rewrite HP in Hx. injection Hx as <-.
    destruct P as [slot h]. cbn in *. subst slot. reflexivity.
Qed.

(** ** Registering callbacks *)

(** X20. In state Init, when no residency requirement is violated, a
    registration succeeds and changes only the callback and its context:
    from then on the handler's callback answer on a result is that of the
    newly registered function on that result and context (none if the
    function is null), replacing any earlier registration; what can be
    observed of state, Gate, Relay and engine is untouched. *)
Theorem register_callbacks_effect (pf : platform_t) (c : handle) cb ud iram internal tr m :
  m_fsm m = ISP_FSM_INIT ->
  (CONFIG_ISP_ISR_IRAM_SAFE pf = false \/ (iram = true /\ internal = true)) ->
  exists m1,
    run pf (esp_isp_awb_register_event_callbacks pf (Some c) (Some cb) ud iram internal) tr m
    = Some (ESP_OK, m1, tr) /\
    (forall r, callback_says m1 r
               = match on_statistics_done cb with
                 | Some f => f (mk_edata r) ud
                 | None => false
                 end) /\
    observe m1 = observe m /\
    arming_of m1 = arming_of m.
Proof.
  intros Hst Hres. exists (registered_from cb ud m).
  rewrite register_run.
  destruct (decide (m_fsm m = ISP_FSM_INIT)) as [_ | Hn]; [| contradiction].
  assert (H1 : CONFIG_ISP_ISR_IRAM_SAFE pf &&
               bool_decide (is_Some (on_statistics_done cb)) && negb iram = false).
  { destruct Hres as [-> | [-> _]]; [reflexivity | apply andb_false_r]. }
  assert (H2 : CONFIG_ISP_ISR_IRAM_SAFE pf && bool_decide (ud ≠ 0) && negb internal = false).
  { destruct Hres as [-> | [_ ->]]; [reflexivity | apply andb_false_r]. }
  rewrite H1, H2. repeat split.
Qed.

(** ** Construction: all or nothing *)

Section AllOrNothing.

Variable pf : platform_t.

Lemma construction_undone_same p w rc :
  rc ≠ ESP_OK -> construction_undone p w (rc, None, w).
Proof. intros Hrc. repeat split; assumption. Qed.

Lemma construction_undone_rolled_back cfg p w :
  construction_undone p w (ESP_ERR_INVALID_ARG, None, new_awb_rolled_back cfg p w).
Proof.
  unfold construction_undone, new_awb_rolled_back, set_procs. cbn [procs ctlrs queues sems intrs].
  repeat split; try discriminate.
  - rewrite lookup_total_alter_eq, lookup_total_alt. destruct (procs w !! p); reflexivity.
  - intros p' Hne. apply lookup_alter_ne. congruence.
Qed.

(** X21. Whatever the allocators answer, as long as the processor is
    live, the addresses handed out are not in use and the interrupt
    allocator returns a handle exactly when it reports success, the
    constructor either returns ESP_OK with a handle that owns the slot,
    or returns an error, stores no handle and leaves the slot, the
    controller memory, the queues, the semaphores, the interrupt table
    and the other processors as they were. *)
Theorem new_awb_all_or_nothing E cfg p w P :
  procs w !! p = Some P ->
  (forall c, heap_caps_calloc E = Some c -> ctlrs w !! c = None) ->
  (forall q, xQueueCreateWithCaps E = Some q -> queues w !! q = None) ->
  (forall s, xSemaphoreCreateBinaryWithCaps E = Some s -> sems w !! s = None) ->
  (forall rc i, esp_intr_alloc_intrstatus E (awb_intr_alloc_flags pf cfg) = (rc, i) ->
                (rc = ESP_OK <-> is_Some i) /\
                (forall i', i = Some i' -> intrs w !! i' = None)) ->
  (exists c w', esp_isp_new_awb_controller pf E (Some p) (Some cfg) true w
                = (ESP_OK, Some c, w') /\
                awb_ctlr (procs w' !!! p) = Some c) \/
  construction_undone p w (esp_isp_new_awb_controller pf E (Some p) (Some cfg) true w).
Proof.
  intros HP Hcf Hqf Hsf Hif.
  destruct (heap_caps_calloc E) as [c |] eqn:Hc.
  2: { right. rewrite new_awb_no_mem_run by auto. apply construction_undone_same. discriminate. }
  specialize (Hcf c eq_refl).
  destruct (xQueueCreateWithCaps E) as [q |] eqn:Hq.
  2: { right. rewrite new_awb_no_mem_run by eauto 10.
       apply construction_undone_same. discriminate. }
  specialize (Hqf q eq_refl).
  destruct (xSemaphoreCreateBinaryWithCaps E) as [s |] eqn:Hs.
  2: { right. rewrite new_awb_no_mem_run by eauto 10.
       apply construction_undone_same. discriminate. }
  specialize (Hsf s eq_refl).
  destruct (awb_ctlr P) as [c0 |] eqn:Hslot.
  { right. rewrite (new_awb_claimed_run pf E cfg p w P c0 c q s) by assumption.
    apply construction_undone_same. discriminate. }
  destruct (esp_intr_alloc_intrstatus E (awb_intr_alloc_flags pf cfg)) as [rc ih] eqn:Hi.
  destruct (Hif rc ih eq_refl) as [Hiff Hfresh].
  destruct ih as [i |].
  - assert (Hrc : rc = ESP_OK) by (apply Hiff; eauto). subst rc.
    assert (Hok : alloc_ok pf E cfg p w c q s i).
    { split; [exists P; auto |]. repeat split; auto. }
    rewrite (new_awb_controller_run pf E cfg p w c q s i Hok).
    destruct (cfg_ranges_ok pf cfg).
    + left. exists c, (new_awb_store pf cfg p c q s i w). split; [reflexivity |].
      unfold new_awb_store. cbn [procs].
      rewrite alter_alter_eq, lookup_total_alter_eq, HP. reflexivity.
    + right. apply construction_undone_rolled_back.
  - assert (Hrc : rc ≠ ESP_OK) by (intros H; apply Hiff in H; destruct H; discriminate).
    right. rewrite (new_awb_intr_refused_run pf E cfg p w P c q s rc) by assumption.
    apply construction_undone_same. exact Hrc.
Qed.

End AllOrNothing.

(** ** The further properties at concrete inputs *)

Lemma new_awb_out_of_memory_witness :
  esp_isp_new_awb_controller sample_platform sample_env_no_queue (Some 1%positive)
    (Some sample_cfg) true sample_store
  = (ESP_ERR_NO_MEM, None, sample_store).
Proof.
  apply (new_awb_out_of_memory sample_platform sample_env_no_queue sample_cfg 1%positive
           sample_store).
  right. exists 10%positive. repeat split. left. reflexivity.
Defined.

Lemma new_awb_on_claimed_processor_witness :
  esp_isp_new_awb_controller sample_platform sample_env_30 (Some 1%positive)
    (Some sample_cfg) true two_ctlr_store
  = (ESP_ERR_NOT_FOUND, None, two_ctlr_store).
Proof.
  apply (new_awb_on_claimed_processor sample_platform sample_env_30 sample_cfg 1%positive
           two_ctlr_store (mk_proc (Some 10%positive) hw_reset) 10%positive
           30%positive 31%positive 32%positive); reflexivity.
Defined.

Lemma new_awb_intr_alloc_failure_witness :
  esp_isp_new_awb_controller sample_platform sample_env_intr_refused (Some 1%positive)
    (Some sample_cfg) true sample_store
  = (ESP_ERR_NOT_FOUND, None, sample_store).
Proof.
  apply (new_awb_intr_alloc_failure sample_platform sample_env_intr_refused sample_cfg
           1%positive sample_store (mk_proc None hw_reset)
           10%positive 11%positive 12%positive ESP_ERR_NOT_FOUND);
    try reflexivity. discriminate.
Defined.

Lemma new_awb_rejects_degenerate_ratio_ranges_witness :
  esp_isp_new_awb_controller sample_platform sample_env (Some 1%positive)
    (Some sample_cfg_equal_bg) true sample_store
  = (ESP_ERR_INVALID_ARG, None, new_awb_rolled_back sample_cfg_equal_bg 1%positive sample_store).
Proof.
  apply (new_awb_rejects_degenerate_ratio_ranges sample_platform sample_env
           sample_cfg_equal_bg 1%positive sample_store
           10%positive 11%positive 12%positive 13%positive).
  - apply sample_alloc_ok.
  - right. left. reflexivity.
Defined.

Lemma new_awb_postcondition_witness :
  exists w1,
    esp_isp_new_awb_controller sample_platform sample_env (Some 1%positive)
      (Some sample_cfg) true sample_store = (ESP_OK, Some 10%positive, w1) /\
    awb_ctlr (procs w1 !!! 1%positive) = Some 10%positive /\
    focus w1 10%positive = fresh_machine 1%positive (hal_hw (procs w1 !!! 1%positive)).
Proof.
  destruct (new_awb_postcondition sample_platform sample_env sample_cfg 1%positive
              sample_store 10%positive 11%positive 12%positive 13%positive
              (mk_proc None hw_reset) (sample_alloc_ok sample_cfg) eq_refl eq_refl)
    as (w1 & H1 & H2 & H3 & _).
  exists w1. auto.
Defined.

Lemma new_then_del_roundtrip_witness :
  exists w1 w2,
    esp_isp_new_awb_controller sample_platform sample_env (Some 1%positive)
      (Some sample_cfg) true sample_store = (ESP_OK, Some 10%positive, w1) /\
    esp_isp_del_awb_controller (Some 10%positive) w1 = (ESP_OK, w2) /\
    awb_ctlr (procs w2 !!! 1%positive) = None /\
    ctlrs w2 = ctlrs sample_store.
Proof.
  destruct (new_then_del_roundtrip sample_platform sample_env sample_cfg 1%positive
              sample_store 10%positive 11%positive 12%positive 13%positive
              (mk_proc None hw_reset) (sample_alloc_ok sample_cfg) eq_refl eq_refl)
    as (w1 & w2 & H1 & H2 & H3 & _ & H5 & _).
  exists w1, w2. auto.
Defined.

(** Enabling twice. *)
Lemma api_call_in_wrong_state_witness :
  exists rc,
    run sample_platform (api_prog sample_platform (Some 1%positive) CallEnable) []
      sample_enabled = Some ((rc, None), sample_enabled, []) /\
    (rc = ESP_ERR_INVALID_ARG \/ rc = ESP_ERR_INVALID_STATE).
Proof.
  apply (api_call_in_wrong_state sample_platform (Some 1%positive) CallEnable []
           sample_enabled).
  right. discriminate.
Defined.

(** A start while the Gate is taken. *)
Lemma api_call_failure_has_no_effect_witness :
  exists m' tr' out,
    run sample_platform (api_prog sample_platform (Some 1%positive) CallStart) [EvTick]
      (upd_stat_lock false sample_enabled)
    = Some ((ESP_ERR_INVALID_STATE, out), m', tr') /\
    m' = upd_stat_lock false sample_enabled /\ tr' = [EvTick] /\
    out = call_out_res CallStart.
Proof.
  exists (upd_stat_lock false sample_enabled), [EvTick], None.
  split; [reflexivity |].
  apply (api_call_failure_has_no_effect sample_platform (Some 1%positive) CallStart [EvTick]
           (upd_stat_lock false sample_enabled) ESP_ERR_INVALID_STATE None
           (upd_stat_lock false sample_enabled) [EvTick]).
  - reflexivity.
  - right. reflexivity.
Defined.

Lemma api_call_success_transition_witness :
  exists m',
    run sample_platform (api_prog sample_platform (Some 1%positive) CallStart) []
      sample_enabled = Some ((ESP_OK, None), m', []) /\
    m_fsm sample_enabled = ISP_FSM_ENABLE /\
    m_fsm m' = ISP_FSM_START /\
    callbacks_of m' = callbacks_of sample_enabled /\
    arming_of m' = arming_of sample_enabled.
Proof.
  exists (started_from sample_enabled). split; [reflexivity |].
  destruct (api_call_success_transition sample_platform (Some 1%positive) CallStart []
              sample_enabled ESP_OK None (started_from sample_enabled) [] eq_refl)
    as (_ & _ & H).
  destruct (H (or_introl eq_refl)) as (_ & H1 & H2 & H3 & H4).
  split; [exact H1 |]. split; [exact H2 |]. split; [exact (H3 eq_refl) | exact (H4 eq_refl)].
Defined.

(** A stale item in the Relay; the window finishes while the request
    waits. *)
Lemma oneshot_outcome_witness :
  exists m',
    interleave sample_platform served_schedule
      (sample_stale, [sample_oneshot_20ms])
    = Some (m', [Ret (ESP_OK, Some sample_result)]) /\
    m_fsm m' = ISP_FSM_ENABLE /\ m_stat_lock m' = true /\ awb_en (m_hw m') = false.
Proof.
  assert (E : exists m',
             interleave sample_platform served_schedule
               (sample_stale, [sample_oneshot_20ms])
             = Some (m', [Ret (ESP_OK, Some sample_result)]))
    by (eexists; vm_compute; reflexivity).
  destruct E as (m' & E). exists m'. split; [exact E |].
  destruct (oneshot_outcome sample_platform 1%positive 20 (Some (mk_result 0 0 0 0))
              served_schedule sample_stale m' ESP_OK (Some sample_result) eq_refl
              (or_introl (ex_intro _ _ eq_refl)) E) as ((Hf & Hg & He) & _).
  repeat split; assumption.
Defined.

Lemma isr_without_fdone_is_inert_witness :
  observe (isr_fire sample_platform 1 sample_result true sample_enabled)
  = observe sample_enabled.
Proof.
  apply (isr_without_fdone_is_inert sample_platform 1 sample_result true sample_enabled).
  reflexivity.
Defined.

Lemma isr_on_fdone_witness :
  m_evt_que (isr_fire sample_platform (BIT 12) sample_result false
               (upd_cbs sample_cb sample_enabled)) = Some sample_result.
Proof.
  apply (isr_on_fdone sample_platform (BIT 12) sample_result false
           (upd_cbs sample_cb sample_enabled)).
  reflexivity.
Defined.


(** [enable] on the new sample controller, in seven steps. *)
Lemma sample_enabled_reachable : reachable sample_platform 1%positive sample_enabled.
Proof.
  apply (reach_enable sample_platform 1%positive sample_fresh
           [Run 0; Run 0; Run 0; Run 0; Run 0; Run 0; Run 0]%nat ESP_OK sample_enabled).
  - apply reach_new. reflexivity.
  - reflexivity.
Defined.

Lemma sequential_discipline_witness :
  m_stat_lock sample_enabled = true /\ armed sample_enabled.
Proof.
  destruct (sequential_discipline sample_platform 1%positive sample_enabled
              sample_enabled_reachable) as (_ & H & _).
  exact (H eq_refl).
Defined.

Lemma disable_enable_roundtrip_witness :
  exists m',
    run sample_platform (disable_enable_cycle 1%positive) [] sample_enabled
    = Some ((ESP_OK, ESP_OK), m', []) /\
    observe m' = observe sample_enabled.
Proof.
  apply (disable_enable_roundtrip sample_platform 1%positive sample_enabled []).
  - exact sample_enabled_reachable.
  - reflexivity.
Defined.


(** Both tasks read the state before either takes the Gate. *)
Lemma two_starts_one_winner_witness :
  exists m' r0 r1,
    interleave sample_platform [Run 0; Run 1; Run 0; Run 1; Run 0; Run 0]%nat
      (sample_enabled, two_starts 1%positive) = Some (m', [Ret r0; Ret r1]) /\
    ((r0 = ESP_OK /\ r1 = ESP_ERR_INVALID_STATE) \/
     (r0 = ESP_ERR_INVALID_STATE /\ r1 = ESP_OK)) /\
    m' = started_from sample_enabled.
Proof.
  exists (started_from sample_enabled), ESP_OK, ESP_ERR_INVALID_STATE.
  split; [reflexivity |].
  apply (two_starts_one_winner sample_platform 1%positive sample_enabled
           [Run 0; Run 1; Run 0; Run 1; Run 0; Run 0]%nat
           (started_from sample_enabled) ESP_OK ESP_ERR_INVALID_STATE
           [Ret ESP_OK; Ret ESP_ERR_INVALID_STATE]); reflexivity.
Defined.

Lemma claim_declaim_roundtrip_witness :
  exists w1,
    s_isp_claim_awb_controller 1%positive 10%positive unclaimed_store = (ESP_OK, w1) /\
    awb_ctlr (procs w1 !!! 1%positive) = Some 10%positive /\
    (forall c2, s_isp_claim_awb_controller 1%positive c2 w1 = (ESP_ERR_NOT_FOUND, w1)) /\
    s_isp_declaim_awb_controller (Some 10%positive) w1 = unclaimed_store.
Proof.
  apply (claim_declaim_roundtrip unclaimed_store 1%positive 10%positive
           (mk_proc None hw_reset)); reflexivity.
Defined.

Lemma register_callbacks_effect_witness :
  exists m1,
    run sample_platform
      (esp_isp_awb_register_event_callbacks sample_platform (Some 1%positive)
         (Some sample_cb) 7 false false) [] sample_fresh
    = Some (ESP_OK, m1, []) /\
    (forall r, callback_says m1 r = (0 <? white_patch_num r)) /\
    observe m1 = observe sample_fresh /\
    arming_of m1 = arming_of sample_fresh.
Proof.
  apply (register_callbacks_effect sample_platform 1%positive sample_cb 7 false false []
           sample_fresh).
  - reflexivity.
  - left. reflexivity.
Defined.

Lemma new_awb_all_or_nothing_witness :
  (exists c w', esp_isp_new_awb_controller sample_platform sample_env_intr_refused
                  (Some 1%positive) (Some sample_cfg) true sample_store
                = (ESP_OK, Some c, w') /\
                awb_ctlr (procs w' !!! 1%positive) = Some c) \/
  construction_undone 1%positive sample_store
    (esp_isp_new_awb_controller sample_platform sample_env_intr_refused
       (Some 1%positive) (Some sample_cfg) true sample_store).
Proof.
  apply (new_awb_all_or_nothing sample_platform sample_env_intr_refused sample_cfg
           1%positive sample_store (mk_proc None hw_reset)).
  - reflexivity.
  - intros c [= <-]. reflexivity.
  - intros q [= <-]. reflexivity.
  - intros s [= <-]. reflexivity.
  - intros rc i [= <- <-]. split.
    + split; [discriminate | intros [x Hx]; discriminate].
    + intros i' Hi'. discriminate.
Defined.
